(** * GOImageScrape: a shallow embedding of [images.go]

    The program reads a sitemap, fetches every listed page from its own
    goroutine under a counting admission gate, extracts the image
    references and the meta description of each page, and collects the
    records.  This development embeds

    - [randomUserAgent] and [makeRequest] as functions over an explicit
      world (clock, global random source, network), with Go panics as an
      outcome of their own;
    - [GetMediaData] over a model of the parsed HTML tree and of the two
      goquery queries it runs, and again ([Live.GetMediaData]) over a
      response whose body is a stream that the call reads and closes;
    - the calls of [randomUserAgent] from several goroutines ([Calls]) as
      an interleaving of their operations on the global source;
    - [parseSitemap] over the decoded [Sitemap] value;
    - [scrapeImages] as an interleaving step function over the goroutines'
      program counters, the two channels, the mutex and the shared slice;
    - [main] (here [main_], since [main] names the caller's program
      counter in the state of [scrapeImages]) over an explicit file
      system, with the text of the report as a function of the records.

    The packages the program imports (net/http, net/url, math/rand,
    encoding/xml, golang.org/x/net/html) are not part of the repository:
    what the program needs from them is collected in the interfaces
    [GoLibs] and [OsLibs]. *)

From Stdlib Require Import ZArith Lia DecimalString DecimalZ DecimalPos.
From stdpp Require Import base list strings.

Local Open Scope string_scope.
Local Open Scope list_scope.

(** ** Go values *)

(** A Go [error] value, identified by its message. *)
Definition error := string.

(** A Go result pair [(T, error)] in which exactly one side is set. *)
Inductive result (T : Type) : Type :=
| Ok (v : T)
| Err (e : error).
Arguments Ok {T} v.
Arguments Err {T} e.

(** What a call does: it returns a value, or the goroutine panics. *)
Inductive Outcome (A : Type) : Type :=
| Ret (a : A)
| Panic (msg : string).
Arguments Ret {A} a.
Arguments Panic {A} msg.

Definition nil_dereference : string :=
  "runtime error: invalid memory address or nil pointer dereference".
Definition index_out_of_range : string :=
  "runtime error: index out of range".
Definition makechan_out_of_range : string :=
  "makechan: size out of range".

(** [xs[i]] on a slice: a run-time panic outside [0, len xs). *)
Definition index {A : Type} (xs : list A) (i : Z) : Outcome A :=
  if (i <? 0)%Z then Panic index_out_of_range
  else match xs !! Z.to_nat i with
       | Some x => Ret x
       | None => Panic index_out_of_range
       end.

(** ** The data model of [images.go] *)

(** [type MediaData struct] (lines 17-22). *)
Record MediaData : Type := mkMediaData {
  URL : string;
  ImageURLs : list string;
  StatusCode : Z;
  meta : string
}.

(** [MediaData{}], the zero value returned next to an error. *)
Definition MediaData_zero : MediaData := mkMediaData "" [] 0 "".

(** [type Sitemap struct] (lines 25-30): the [<url>] children of the
    [<urlset>] root, each with the text of its [<loc>] child. *)
Record SitemapUrl : Type := mkSitemapUrl { Loc : string }.
Record Sitemap : Type := mkSitemap { Urls : list SitemapUrl }.

(** [var userAgents] (lines 41-45). *)
Definition userAgents : list string :=
  [ "Mozilla/5.0 (Windows NT 10.0; Win64; x64) AppleWebKit/537.36 (KHTML, like Gecko) Chrome/61.0.3163.100 Safari/537.36";
    "Mozilla/5.0 (Macintosh; Intel Mac OS X 10_12_6) AppleWebKit/537.36 (KHTML, like Gecko) Chrome/61.0.3163.100 Safari/537.36";
    "Mozilla/5.0 (Windows NT 10.0; Win64; x64; rv:56.0) Gecko/20100101 Firefox/56.0" ].

(** ** The parsed HTML tree and the goquery queries *)

Set Warnings "-register-all".

Module html.

(** [html.NodeType]. *)
Inductive NodeType : Type :=
| ErrorNode | TextNode | DocumentNode | ElementNode | CommentNode
| DoctypeNode.

(** [html.Attribute] (the namespace is not used by the program). *)
Record Attribute : Type := mkAttr { Key : string; Val : string }.

(** [html.Node]: the children in sibling order. *)
Inductive Node : Type :=
| mkNode (type : NodeType) (data : string) (attr : list Attribute)
         (children : list Node).

Definition Type_ (n : Node) : NodeType :=
  match n with mkNode t _ _ _ => t end.
Definition Data (n : Node) : string :=
  match n with mkNode _ d _ _ => d end.
Definition Attr (n : Node) : list Attribute :=
  match n with mkNode _ _ a _ => a end.
Definition Children (n : Node) : list Node :=
  match n with mkNode _ _ _ c => c end.

Definition is_element (n : Node) : bool :=
  match Type_ n with ElementNode => true | _ => false end.

End html.

Module goquery.
Import html.

(** The two selectors the program compiles: ["img"] is a tag selector,
    ["meta[name^=description]"] a tag selector combined with an
    attribute-prefix selector. *)
Inductive Selector : Type :=
| SelTag (tag : string)
| SelAttrPrefix (key val : string)
| SelAnd (a b : Selector).

Definition img : Selector := SelTag "img".
Definition meta_description : Selector :=
  SelAnd (SelTag "meta") (SelAttrPrefix "name" "description").

(** [strings.HasPrefix s p]. *)
Fixpoint HasPrefix (s p : string) : bool :=
  match p, s with
  | EmptyString, _ => true
  | String c p', String d s' => if decide (c = d) then HasPrefix s' p' else false
  | String _ _, EmptyString => false
  end.

(** Whether a selector matches a node: only element nodes match; a tag
    selector compares the node's data, an attribute selector looks for
    some attribute of that key whose value has the prefix. *)
Fixpoint matches (sel : Selector) (n : Node) : bool :=
  match sel with
  | SelTag tag => is_element n && bool_decide (Data n = tag)
  | SelAttrPrefix key val =>
      is_element n &&
      existsb (fun a => bool_decide (Key a = key) && HasPrefix (Val a) val)
              (Attr n)
  | SelAnd a b => matches a n && matches b n
  end.

(** [Matcher.MatchAll]: the node itself when it matches, then the
    matches below each child, first child first. *)
Fixpoint MatchAll (sel : Selector) (n : Node) : list Node :=
  match n with
  | mkNode _ _ _ cs =>
      (if matches sel n then [n] else []) ++ flat_map (MatchAll sel) cs
  end.

(** [Document.Find]: the matches among the descendants of the root,
    element children only. *)
Definition Find (root : Node) (sel : Selector) : list Node :=
  flat_map (fun c => if is_element c then MatchAll sel c else [])
           (Children root).

(** The attribute of that name on one node: the first with the key. *)
Fixpoint getAttributeValue (attrName : string) (attrs : list Attribute)
  : string * bool :=
  match attrs with
  | [] => ("", false)
  | a :: rest =>
      if decide (Key a = attrName) then (Val a, true)
      else getAttributeValue attrName rest
  end.

(** [Selection.Attr]: the attribute of the first node of the selection;
    [("", false)] on an empty selection. *)
Definition Selection_Attr (sel : list Node) (attrName : string)
  : string * bool :=
  match sel with
  | [] => ("", false)
  | n :: _ => getAttributeValue attrName (Attr n)
  end.

(** [Selection.Each f]: [f] on every node of the selection, in the
    selection's order; the closure's captured variable is the
    accumulator. *)
Definition Each {S : Type} (sel : list Node) (f : S -> nat -> Node -> S)
    (init : S) : S :=
  snd (fold_left (fun '(i, acc) n => (Datatypes.S i, f acc i n)) sel (0, init)).

End goquery.

(** ** The imported packages *)

Module http.

(** [http.Request]: method, the parsed URL (as [URL.String()] renders it)
    and the header fields in the order they were set. *)
Record Request : Type := mkRequest {
  Method : string;
  URL : string;
  Header : list (string * string)
}.

(** [Header.Set key value]: replaces the values of [key]. *)
Definition Header_Set (h : list (string * string)) (key value : string)
  : list (string * string) :=
  filter (fun kv => kv.1 ≠ key) h ++ [(key, value)].

(** [http.Response] as [Client.Do] hands it out: the status code, the
    request that obtained it (the last one of a redirect chain) and the
    body stream. *)
Record Response (Body : Type) : Type := mkResponse {
  StatusCode : Z;
  Request_ : Request;
  Body_ : Body
}.
Arguments mkResponse {Body} _ _ _.
Arguments StatusCode {Body} _.
Arguments Request_ {Body} _.
Arguments Body_ {Body} _.

End http.

(** What the program uses of its imports.

    - [rand_Seed] is [rand.Seed]: it replaces the state of the global
      source by one that depends on the seed only; [rand_Int] is
      [rand.Int]: one draw and the advanced state.
    - [url_Parse] is [url.Parse] followed by [URL.String].
    - [client_Do] is [Client.Do] with the 10 second timeout of line 60: a
      response (of any status code) or a transport error, and the new
      state of the network.
    - [html_Parse] is [html.Parse] on a response body, [xml_Decode] is
      [Decoder.Decode] into a [Sitemap] on a response body. *)
Class GoLibs : Type := mkGoLibs {
  Rng : Type;
  Net : Type;
  Body : Type;
  rand_Seed : Z -> Rng;
  rand_Int : Rng -> Z * Rng;
  url_Parse : string -> result string;
  client_Do : http.Request -> Net -> result (http.Response Body) * Net;
  html_Parse : Body -> result html.Node;
  xml_Decode : Body -> result Sitemap
}.

Section Program.
Context {libs : GoLibs}.

Abbreviation Response := (http.Response Body).

(** What a call reads and writes besides its arguments: the wall clock in
    nanoseconds since the epoch, the global source of math/rand, the
    network. *)
Record World : Type := mkWorld {
  now : Z;
  rng : Rng;
  net : Net
}.

Definition set_rng (g : Rng) (w : World) : World := mkWorld (now w) g (net w).
Definition set_net (n : Net) (w : World) : World := mkWorld (now w) (rng w) n.
Definition set_now (t : Z) (w : World) : World := mkWorld t (rng w) (net w).

(** [time.Now().Unix()]: whole seconds since the epoch. *)
Definition time_Unix (nanos : Z) : Z := (nanos / 1000000000)%Z.

(** [http.NewRequest method url nil]: on a URL that does not parse the
    request is nil and the error is set. *)
Definition http_NewRequest (method url : string)
  : option http.Request * option error :=
  match url_Parse url with
  | Err e => (None, Some e)
  | Ok u => (Some (http.mkRequest method u []), None)
  end.

(** ** [randomUserAgent] (lines 48-53) *)
Definition randomUserAgent (w : World) : Outcome string * World :=
  let g := rand_Seed (time_Unix (now w)) in
  let '(r, g') := rand_Int g in
  let randNum := Z.rem r (Z.of_nat (length userAgents)) in
  (index userAgents randNum, set_rng g' w).

(** ** [makeRequest] (lines 56-77)

    Line 66 selects [req.Header] before line 67 looks at [err]: with a
    nil [req] that selection panics. *)
Definition makeRequest (url : string) (w : World)
  : Outcome (result Response) * World :=
  let '(req, err) := http_NewRequest "GET" url in
  match req with
  | None => (Panic nil_dereference, w)
  | Some req =>
      let '(ua, w1) := randomUserAgent w in
      match ua with
      | Panic msg => (Panic msg, w1)
      | Ret ua =>
          let req :=
            http.mkRequest (http.Method req) (http.URL req)
              (http.Header_Set (http.Header req) "User-Agent" ua) in
          match err with
          | Some e => (Ret (Err e), w1)
          | None =>
              let '(res, n) := client_Do req (net w1) in
              match res with
              | Err e => (Ret (Err e), set_net n w1)
              | Ok res => (Ret (Ok res), set_net n w1)
              end
          end
      end
  end.

(** ** [GetMediaData] (lines 80-107) *)

(** [goquery.NewDocumentFromResponse]: the parsed body. *)
Definition NewDocumentFromResponse (resp : Response) : result html.Node :=
  html_Parse (http.Body_ resp).

(** The closure of lines 91-97. *)
Definition collect_src (imageURLs : list string) (i : nat) (s : html.Node)
  : list string :=
  let '(src, exists_) := goquery.Selection_Attr [s] "src" in
  if exists_ then imageURLs ++ [src] else imageURLs.

Definition GetMediaData (resp : Response) : result MediaData :=
  match NewDocumentFromResponse resp with
  | Err e => Err e
  | Ok doc =>
      let imageURLs :=
        goquery.Each (goquery.Find doc goquery.img) collect_src [] in
      let result :=
        mkMediaData (http.URL (http.Request_ resp)) imageURLs
                    (http.StatusCode resp) "" in
      let '(m, _) :=
        goquery.Selection_Attr (goquery.Find doc goquery.meta_description)
                               "content" in
      Ok (mkMediaData (URL result) (ImageURLs result) (StatusCode result) m)
  end.

(** ** [parseSitemap] (lines 110-129) *)
Definition parseSitemap (sitemapURL : string) (w : World)
  : Outcome (result (list string)) * World :=
  let '(r, w1) := makeRequest sitemapURL w in
  match r with
  | Panic msg => (Panic msg, w1)
  | Ret (Err e) => (Ret (Err e), w1)
  | Ret (Ok resp) =>
      match xml_Decode (http.Body_ resp) with
      | Err e => (Ret (Err e), w1)
      | Ok sitemap =>
          (Ret (Ok (fold_left (fun urls url => urls ++ [Loc url])
                              (Urls sitemap) [])), w1)
      end
  end.

(** ** [scrapeImages] (lines 132-173) *)

(** [type Parser interface] (lines 33-35) and its one implementation. *)
Record Parser : Type := mkParser {
  Parser_GetMediaData : Response -> result MediaData
}.
Definition DefaultParser : Parser := mkParser GetMediaData.

(** How the body of a goroutine ended: it ran to the end of line 163, it
    left through one of the two [return]s of lines 148 and 154, or it
    panicked.  In every case the deferred call of line 142 runs next. *)
Inductive Exit : Type :=
| Completed (data : MediaData)
| Failed
| Panicking.

(** Where a goroutine of line 140 stands: the statement it executes next,
    with the locals that statement reads. *)
Inductive TaskPC : Type :=
| AtAcquire                                (* 141: tokens <- struct{}{} *)
| AtRequest                                (* 144-145: makeRequest(url) *)
| AtParse (resp : Response)                (* 151: parser.GetMediaData *)
| AtLock (data : MediaData)                (* 157: mu.Lock() *)
| AtAppendRead (data : MediaData)          (* 159: append(results, data) *)
| AtAppendWrite (data : MediaData) (new : list MediaData)
                                           (* 159: results = ... *)
| AtUnlock (data : MediaData)              (* 160: mu.Unlock() *)
| AtSignal (data : MediaData)              (* 163: worklist <- url *)
| AtRelease (e : Exit)                     (* 142: <-tokens, deferred *)
| Finished (e : Exit).

Record Task : Type := mkTask {
  task_url : string;
  pc : TaskPC
}.

(** Where the calling goroutine stands. *)
Inductive MainPC : Type :=
| MMake                                    (* 133-136 *)
| MSpawn (rest : list string)              (* 139: URLs not yet started *)
| MWait (n : nat)                          (* 168: receives still to do *)
| MReturned (res : list MediaData).        (* 172 *)

(** The shared state of one call of [scrapeImages]: [tokens] holds only
    [struct{}{}] values, so its buffer is a count; [worklist] is a FIFO
    buffer; [crashed] is set when a panic has ended the process. *)
Record State : Type := mkState {
  main : MainPC;
  tasks : list Task;
  tokens : nat;
  worklist : list string;
  mu : bool;
  results : list MediaData;
  world : World;
  crashed : option string
}.

(** Who takes the next step: the caller, goroutine [i], or the
    environment (the clock advances, the network changes). *)
Inductive Actor : Type :=
| Main
| Go (i : nat)
| Env (f : World -> World).

Section Scrape.
Variable urls : list string.
Variable parser : Parser.
Variable concurrency : Z.

Definition init (w : World) : State :=
  mkState MMake [] 0 [] false [] w None.

Definition set_main (m : MainPC) (s : State) : State :=
  mkState m (tasks s) (tokens s) (worklist s) (mu s) (results s) (world s)
          (crashed s).
Definition set_pc (i : nat) (p : TaskPC) (s : State) : State :=
  mkState (main s)
          (alter (fun t => mkTask (task_url t) p) i (tasks s))
          (tokens s) (worklist s) (mu s) (results s) (world s) (crashed s).
Definition set_tokens (n : nat) (s : State) : State :=
  mkState (main s) (tasks s) n (worklist s) (mu s) (results s) (world s)
          (crashed s).
Definition set_worklist (wl : list string) (s : State) : State :=
  mkState (main s) (tasks s) (tokens s) wl (mu s) (results s) (world s)
          (crashed s).
Definition set_mu (b : bool) (s : State) : State :=
  mkState (main s) (tasks s) (tokens s) (worklist s) b (results s) (world s)
          (crashed s).
Definition set_results (r : list MediaData) (s : State) : State :=
  mkState (main s) (tasks s) (tokens s) (worklist s) (mu s) r (world s)
          (crashed s).
Definition set_world (w : World) (s : State) : State :=
  mkState (main s) (tasks s) (tokens s) (worklist s) (mu s) (results s) w
          (crashed s).
Definition set_crashed (msg : string) (s : State) : State :=
  mkState (main s) (tasks s) (tokens s) (worklist s) (mu s) (results s)
          (world s) (Some msg).
Definition spawn (u : string) (s : State) : State :=
  mkState (main s) (tasks s ++ [mkTask u AtAcquire]) (tokens s) (worklist s)
          (mu s) (results s) (world s) (crashed s).

(** One step of the caller; [None] when it is blocked or has returned.
    [make] panics on a negative capacity. *)
Definition step_main (s : State) : option State :=
  match main s with
  | MMake =>
      if (concurrency <? 0)%Z then Some (set_crashed makechan_out_of_range s)
      else Some (set_main (MSpawn urls) s)
  | MSpawn (u :: rest) => Some (set_main (MSpawn rest) (spawn u s))
  | MSpawn [] => Some (set_main (MWait (length urls)) s)
  | MWait (S n) =>
      match worklist s with
      | [] => None
      | _ :: wl => Some (set_main (MWait n) (set_worklist wl s))
      end
  | MWait 0 => Some (set_main (MReturned (results s)) s)
  | MReturned _ => None
  end.

(** One step of goroutine [i] standing at [t]; [None] when it is blocked
    or has finished.  A send on [tokens] goes through when the buffer has
    room (with capacity 0 it would need a receiver that is ready, and the
    only receives are the deferred ones of goroutines that already sent);
    a receive needs a buffered element. *)
Definition step_task (i : nat) (t : Task) (s : State) : option State :=
  match pc t with
  | AtAcquire =>
      if (Z.of_nat (tokens s) <? concurrency)%Z
      then Some (set_pc i AtRequest (set_tokens (S (tokens s)) s))
      else None
  | AtRequest =>
      let '(o, w) := makeRequest (task_url t) (world s) in
      Some (set_world w
        match o with
        | Panic _ => set_pc i (AtRelease Panicking) s
        | Ret (Err _) => set_pc i (AtRelease Failed) s
        | Ret (Ok resp) => set_pc i (AtParse resp) s
        end)
  | AtParse resp =>
      match Parser_GetMediaData parser resp with
      | Err _ => Some (set_pc i (AtRelease Failed) s)
      | Ok data => Some (set_pc i (AtLock data) s)
      end
  | AtLock data =>
      if mu s then None
      else Some (set_pc i (AtAppendRead data) (set_mu true s))
  | AtAppendRead data =>
      Some (set_pc i (AtAppendWrite data (results s ++ [data])) s)
  | AtAppendWrite data new =>
      Some (set_pc i (AtUnlock data) (set_results new s))
  | AtUnlock data =>
      if mu s then Some (set_pc i (AtSignal data) (set_mu false s))
      else Some (set_crashed "sync: unlock of unlocked mutex" s)
  | AtSignal data =>
      if (length (worklist s) <? length urls)%nat
      then Some (set_pc i (AtRelease (Completed data))
                   (set_worklist (worklist s ++ [task_url t]) s))
      else None
  | AtRelease e =>
      match tokens s with
      | O => None
      | S n =>
          let s' := set_pc i (Finished e) (set_tokens n s) in
          Some (match e with
                | Panicking => set_crashed nil_dereference s'
                | _ => s'
                end)
      end
  | Finished _ => None
  end.

(** One step of the program; nothing runs once the process has crashed. *)
Definition step (a : Actor) (s : State) : option State :=
  match crashed s with
  | Some _ => None
  | None =>
      match a with
      | Main => step_main s
      | Go i =>
          match tasks s !! i with
          | Some t => step_task i t s
          | None => None
          end
      | Env f => Some (set_world (f (world s)) s)
      end
  end.

(** The states a run can be in. *)
Inductive reachable (w : World) : State -> Prop :=
| reachable_init : reachable w (init w)
| reachable_step s a s' :
    reachable w s -> step a s = Some s' -> reachable w s'.

(** A schedule run from a state; a step that cannot be taken is skipped. *)
Fixpoint run (sched : list Actor) (s : State) : State :=
  match sched with
  | [] => s
  | a :: rest => run rest (default s (step a s))
  end.

(** [scrapeImages] under a schedule: what the caller returns, if the
    schedule lets it get to line 172. *)
Definition scrapeImages (sched : list Actor) (w : World)
  : option (list MediaData) :=
  match main (run sched (init w)) with
  | MReturned res => Some res
  | _ => None
  end.

(** The goroutines that hold a unit of [tokens]: they have sent on the
    channel and not yet received from it. *)
Definition holds_token (t : Task) : bool :=
  match pc t with
  | AtAcquire | Finished _ => false
  | _ => true
  end.

(** The goroutines inside the critical section of [mu]. *)
Definition holds_mu (t : Task) : bool :=
  match pc t with
  | AtAppendRead _ | AtAppendWrite _ _ | AtUnlock _ => true
  | _ => false
  end.

(** The goroutines that have sent their completion signal. *)
Definition signalled (t : Task) : bool :=
  match pc t with
  | AtRelease (Completed _) | Finished (Completed _) => true
  | _ => false
  end.

(** The goroutines that took a failure path: an early [return] or a
    panic. *)
Definition failed (t : Task) : bool :=
  match pc t with
  | AtRelease Failed | AtRelease Panicking
  | Finished Failed | Finished Panicking => true
  | _ => false
  end.

(** The record a goroutine has stored in [results]. *)
Definition stored (t : Task) : option MediaData :=
  match pc t with
  | AtUnlock d | AtSignal d
  | AtRelease (Completed d) | Finished (Completed d) => Some d
  | _ => None
  end.

Definition count (P : Task -> bool) (l : list Task) : nat :=
  length (filter (fun t => P t = true) l).

Definition inflight (s : State) : nat := count holds_token (tasks s).

Definition returned (s : State) : bool :=
  match main s with MReturned _ => true | _ => false end.

(** The completion signals the caller has taken from [worklist]. *)
Definition received (m : MainPC) : nat :=
  match m with
  | MWait n => length urls - n
  | MReturned _ => length urls
  | _ => 0
  end.

(** A state in which nobody can take a step although the caller has not
    returned. *)
Definition stuck (s : State) : Prop :=
  returned s = false /\ step Main s = None /\ forall i, step (Go i) s = None.

(** *** Invariants of a run *)

(** The gate: the buffer of [tokens] holds one element per goroutine in
    flight, and never more than its capacity. *)
Definition gate_inv (s : State) : Prop :=
  tokens s = inflight s /\ (Z.of_nat (tokens s) <= Z.max 0 concurrency)%Z.

(** The completion signals: each was sent by a goroutine that reached
    line 163; the goroutines are those of the URLs started so far. *)
Definition signal_inv (s : State) : Prop :=
  received (main s) + length (worklist s) = count signalled (tasks s) /\
  (forall n, main s = MWait n -> n <= length urls) /\
  match main s with
  | MMake => tasks s = []
  | MSpawn rest => (task_url <$> tasks s) ++ rest = urls
  | _ => task_url <$> tasks s = urls
  end.

(** The shared slice: [mu] is held by the goroutines between lines 157
    and 160, at most one; the value a goroutine is about to store is the
    slice with its record appended; the slice holds the records of the
    goroutines that have stored theirs. *)
Definition results_inv (s : State) : Prop :=
  count holds_mu (tasks s) = (if mu s then 1 else 0) /\
  Forall (fun t => forall d new,
            pc t = AtAppendWrite d new -> new = results s ++ [d]) (tasks s) /\
  results s ≡ₚ omap stored (tasks s).

(** A URL whose goroutine cannot produce a record: whatever the world,
    the request panics or returns an error, or the parser rejects the
    response. *)
Definition never_succeeds (url : string) : Prop :=
  forall w resp,
    (makeRequest url w).1 = Ret (Ok resp) ->
    exists e, Parser_GetMediaData parser resp = Err e.

(** Where the goroutine of such a URL can stand. *)
Definition on_failure_path (t : Task) : Prop :=
  match pc t with
  | AtAcquire | AtRequest => True
  | AtParse resp => exists e, Parser_GetMediaData parser resp = Err e
  | AtRelease e | Finished e =>
      match e with Completed _ => False | _ => True end
  | _ => False
  end.

(** Where a record comes from: the parser's result on a response that
    [makeRequest] returned for the goroutine's URL. *)
Definition produced (url : string) (d : MediaData) : Prop :=
  exists w resp,
    (makeRequest url w).1 = Ret (Ok resp) /\
    Parser_GetMediaData parser resp = Ok d.

Definition provenance (t : Task) : Prop :=
  match pc t with
  | AtParse resp => exists w, (makeRequest (task_url t) w).1 = Ret (Ok resp)
  | AtLock d | AtAppendRead d | AtAppendWrite d _ | AtUnlock d | AtSignal d
  | AtRelease (Completed d) | Finished (Completed d) =>
      produced (task_url t) d
  | _ => True
  end.

(** A URL whose goroutine always produces a record: whatever the world,
    the request returns a response and the parser accepts it. *)
Definition always_succeeds (url : string) : Prop :=
  forall w,
    exists resp d,
      (makeRequest url w).1 = Ret (Ok resp) /\
      Parser_GetMediaData parser resp = Ok d.

(** Where the goroutine of such a URL can stand. *)
Definition on_success_path (t : Task) : Prop :=
  failed t = false /\
  match pc t with
  | AtParse resp => exists w, (makeRequest (task_url t) w).1 = Ret (Ok resp)
  | _ => True
  end.

Definition success_inv (s : State) : Prop :=
  crashed s = None /\
  Forall (fun t => always_succeeds (task_url t) /\ on_success_path t)
         (tasks s) /\
  match main s with
  | MMake => Forall always_succeeds urls
  | MSpawn rest => Forall always_succeeds rest
  | _ => True
  end.

(** The statements a goroutine has still to execute, and the steps the
    caller and the goroutines have still to take together. *)
Definition task_measure (t : Task) : nat :=
  match pc t with
  | AtAcquire => 9
  | AtRequest => 8
  | AtParse _ => 7
  | AtLock _ => 6
  | AtAppendRead _ => 5
  | AtAppendWrite _ _ => 4
  | AtUnlock _ => 3
  | AtSignal _ => 2
  | AtRelease _ => 1
  | Finished _ => 0
  end.

Definition main_measure (m : MainPC) : nat :=
  match m with
  | MMake => 11 * length urls + 4
  | MSpawn rest => 10 * length rest + length urls + 3
  | MWait n => n + 1
  | MReturned _ => 0
  end.

Definition measure (s : State) : nat :=
  main_measure (main s) + sum_list_with task_measure (tasks s).

(** The goroutines whose next statement cannot block, and those that
    wait for [mu]. *)
Definition busy (t : Task) : bool :=
  match pc t with
  | AtAcquire | AtLock _ | Finished _ => false
  | _ => true
  end.

Definition at_lock (t : Task) : bool :=
  match pc t with AtLock _ => true | _ => false end.

(** No goroutine is on the way out of a panic, and the process is alive. *)
Definition alive_inv (s : State) : Prop :=
  crashed s = None /\
  Forall (fun t => pc t <> AtRelease Panicking /\ pc t <> Finished Panicking)
         (tasks s).

(** A goroutine that panicked has run its deferred call only in a process
    that has crashed; it panicked because [makeRequest] did. *)
Definition panic_inv (s : State) : Prop :=
  Forall (fun t =>
            (pc t = Finished Panicking -> crashed s <> None) /\
            (pc t = AtRelease Panicking \/ pc t = Finished Panicking ->
             exists w msg, (makeRequest (task_url t) w).1 = Panic msg))
         (tasks s).

Definition failure_inv (s : State) : Prop :=
  Forall (fun t => never_succeeds (task_url t) -> on_failure_path t) (tasks s).

Definition provenance_inv (s : State) : Prop :=
  Forall provenance (tasks s).

(** What the caller returns is the shared slice. *)
Definition returned_inv (s : State) : Prop :=
  forall rs, main s = MReturned rs -> rs = results s.

End Scrape.

End Program.

(** ** A small instance of the imports

    Used to run the program on concrete inputs: URLs that start with a
    colon do not parse (net/url: missing protocol scheme), the hosts
    [down] and [junk] refuse the connection and answer with an unreadable
    body, every other URL answers 200 with the page registered for it. *)
Module Demo.

Inductive DBody : Type :=
| Page (doc : html.Node)
| Xml (s : Sitemap)
| Junk.

Definition starts_with_colon (s : string) : bool :=
  match s with
  | String c _ => bool_decide (String c EmptyString = ":")
  | EmptyString => false
  end.

Definition elem (tag : string) (attrs : list html.Attribute)
    (children : list html.Node) : html.Node :=
  html.mkNode html.ElementNode tag attrs children.

(** [<img src="a.png"> <img> <img src="b.jpg">] in the body, and a
    description in the head. *)
Definition page3 : html.Node :=
  html.mkNode html.DocumentNode "" []
    [ elem "html" []
        [ elem "head" []
            [ elem "meta" [html.mkAttr "charset" "utf-8"] [];
              elem "meta" [html.mkAttr "name" "description";
                           html.mkAttr "content" "hello"] [] ];
          elem "body" []
            [ elem "img" [html.mkAttr "src" "a.png"] [];
              elem "div" [] [ elem "img" [] [] ];
              elem "img" [html.mkAttr "alt" "b"; html.mkAttr "src" "b.jpg"] []
            ] ] ].

(** A page without images and without a description. *)
Definition page0 : html.Node :=
  html.mkNode html.DocumentNode "" []
    [ elem "html" [] [ elem "head" [] []; elem "body" [] [] ] ].

Definition sitemap2 : Sitemap :=
  mkSitemap [ mkSitemapUrl "https://x/1"; mkSitemapUrl "https://x/2" ].

Definition serve (url : string) : result (Z * DBody) :=
  if decide (url = "https://down/") then Err "connection refused"
  else if decide (url = "https://junk/") then Ok (200%Z, Junk)
  else if decide (url = "https://x/sitemap.xml") then Ok (200%Z, Xml sitemap2)
  else if decide (url = "https://x/missing") then Ok (404%Z, Page page0)
  else Ok (200%Z, Page page3).

(** [https://x/old] redirects to [https://x/new]: the response carries
    the request that was sent last. *)
Definition follow (req : http.Request) : http.Request :=
  if decide (http.URL req = "https://x/old")
  then http.mkRequest (http.Method req) "https://x/new" (http.Header req)
  else req.

#[export] Instance libs : GoLibs := {|
  Rng := Z;
  Net := nat;
  Body := DBody;
  rand_Seed := fun seed => (seed mod 2 ^ 63)%Z;
  rand_Int := fun g =>
    let g' := ((g * 6364136223846793005 + 1442695040888963407) mod 2 ^ 63)%Z
    in (g', g');
  url_Parse := fun u =>
    if starts_with_colon u then Err "missing protocol scheme" else Ok u;
  client_Do := fun req n =>
    (match serve (http.URL req) with
     | Err e => Err e
     | Ok (code, b) => Ok (http.mkResponse code (follow req) b)
     end, S n);
  html_Parse := fun b =>
    match b with Page d => Ok d | _ => Err "unexpected EOF" end;
  xml_Decode := fun b =>
    match b with
    | Xml s => Ok s
    | _ => Err "expected element type <urlset>"
    end
|}.

Definition world0 : World := mkWorld 1700000000123456789%Z 0%Z 0%nat.

(** What the client answers to a request for [https://x/old] made at
    [world0]. *)
Definition redirected : http.Response Body :=
  http.mkResponse 200
    (http.mkRequest "GET" "https://x/new"
       [("User-Agent", default "" (userAgents !! 0%nat))])
    (Page page3).

(** Responses that carry the two pages. *)
Definition response3 : http.Response Body :=
  http.mkResponse 200 (http.mkRequest "GET" "https://x/3" []) (Page page3).

Definition response0 : http.Response Body :=
  http.mkResponse 200 (http.mkRequest "GET" "https://x/0" []) (Page page0).

(** Two URLs that answer. *)
Definition urls2 : list string := ["https://x/a"; "https://x/missing"].

End Demo.

(** ** The extraction in the words of the specification

    These definitions do not follow the code: they say what the
    specification says, over the nodes of a tree in document order, and
    are compared with [GetMediaData] below. *)
Module Spec.
Import html.

(** The nodes below [n] in document order: each child, followed by what is
    below it, first child first. *)
Fixpoint descendants (n : Node) : list Node :=
  match n with
  | mkNode _ _ _ cs => flat_map (fun c => c :: descendants c) cs
  end.

(** The value of the attribute [key] of a node, if it has one. *)
Definition attribute (key : string) (n : Node) : option string :=
  Val <$> List.find (fun a => bool_decide (Key a = key)) (Attr n).

Definition is_img (n : Node) : bool :=
  is_element n && bool_decide (Data n = "img").

(** A meta element with a name attribute that starts with
    ["description"]. *)
Definition is_meta_description (n : Node) : bool :=
  is_element n && bool_decide (Data n = "meta") &&
  existsb (fun a => bool_decide (Key a = "name") &&
                    bool_decide (String.prefix "description" (Val a) = true))
          (Attr n).

(** The [src] of every image element that has one, in document order. *)
Definition image_refs (doc : Node) : list string :=
  omap (attribute "src") (List.filter is_img (descendants doc)).

(** The [content] of the first meta description element; the empty string
    when there is no such element or it has no [content]. *)
Definition meta_snippet (doc : Node) : string :=
  match List.find is_meta_description (descendants doc) with
  | Some n => default "" (attribute "content" n)
  | None => ""
  end.

(** The location entries of a sitemap as a flat list, in document order. *)
Definition locations (sm : Sitemap) : list string := Loc <$> Urls sm.

(** The shape of every tree the HTML parser builds: below the root only
    element nodes have children. *)
Fixpoint leaf_closed (n : Node) : bool :=
  match n with
  | mkNode t _ _ cs =>
      match t with
      | ElementNode => forallb leaf_closed cs
      | _ => match cs with [] => true | _ => false end
      end
  end.

Definition parse_tree (root : Node) : bool :=
  forallb leaf_closed (Children root).

End Spec.

(** ** [main] (lines 175-213) *)

(** What [main] uses of package os: [os_Create] creates or truncates the
    named file, [File_WriteString] writes a string to an open file and
    returns the error, if any (the byte count is not used by line 206). *)
Class OsLibs : Type := mkOsLibs {
  FS : Type;
  File : Type;
  os_Create : string -> FS -> result File * FS;
  File_WriteString : File -> string -> FS -> option error * FS
}.

Module fmt.

(** The line feed of the format strings. *)
Definition LF : string := String (Ascii.Ascii false true false true false false false false) "".

(** The verb [%d] on an [int]: decimal digits, a minus sign on negative
    numbers. *)
Definition Sprintf_d (n : Z) : string :=
  DecimalString.NilZero.string_of_int (Z.to_int n).

End fmt.

(** One [- %s\n] line of line 203. *)
Definition image_line (imgURL : string) : string :=
  "- " +:+ imgURL +:+ fmt.LF.

(** Lines 201-205: the text written for one record. *)
Definition record_output (res : MediaData) : string :=
  let output :=
    "URL: " +:+ URL res +:+ fmt.LF +:+
    "StatusCode: " +:+ fmt.Sprintf_d (StatusCode res) +:+ fmt.LF +:+
    "Meta Description: " +:+ meta res +:+ fmt.LF +:+
    "Images:" +:+ fmt.LF in
  let output :=
    fold_left (fun output imgURL => output +:+ image_line imgURL)
              (ImageURLs res) output in
  output +:+ fmt.LF.

(** The text of a whole report: the records' texts one after the other. *)
Definition report (results : list MediaData) : string :=
  fold_right (fun res rest => record_output res +:+ rest) "" results.

(** The image lines of a record followed by [rest]. *)
Definition image_lines (imgs : list string) (rest : string) : string :=
  fold_right (fun imgURL out => "- " +:+ imgURL +:+ fmt.LF +:+ out) rest imgs.

(** A string without a line feed. *)
Fixpoint single_line (s : string) : bool :=
  match s with
  | EmptyString => true
  | String c s' =>
      negb (Ascii.eqb c (Ascii.Ascii false true false true false false false false))
      && single_line s'
  end.

(** A record whose URL, description and image references are single
    lines. *)
Definition plain_record (res : MediaData) : bool :=
  single_line (URL res) && single_line (meta res) &&
  forallb single_line (ImageURLs res).

Section Driver.
Context {libs : GoLibs} {oslibs : OsLibs}.

Definition sitemapURL : string := "https://www.espn.com/googlenewssitemap".
Definition output_name : string := "image_results.txt".
Definition completion_message : string :=
  "Image extraction completed. Results saved to image_results.txt".

(** The loop of lines 200-210: one write per record, in the order of
    [results]; a failed write is logged and the loop goes on.  Returns the
    file system and the messages logged. *)
Fixpoint write_results (outputFile : File) (results : list MediaData)
    (fs : FS) : FS * list string :=
  match results with
  | [] => (fs, [])
  | res :: rest =>
      let '(err, fs1) := File_WriteString outputFile (record_output res) fs in
      let '(fs2, logged) := write_results outputFile rest fs1 in
      (fs2,
       match err with
       | Some e =>
           ("Error writing to file for URL " +:+ URL res +:+ ": " +:+ e)
           :: logged
       | None => logged
       end)
  end.

(** How a run of [main] ends: [log.Fatalf] exits with status 1, a panic
    ends the process, [main] returns, or the schedule given for
    [scrapeImages] is used up before the call has returned. *)
Inductive Ending : Type :=
| Fatal (msg : string)
| Crashed (msg : string)
| Returned
| Scraping.

Record MainRun : Type := mkMainRun {
  ending : Ending;
  logged : list string;
  stdout : list string;
  final_fs : FS;
  final_world : World
}.

(** [main], with the schedule of the goroutines of [scrapeImages] as an
    argument.  [logged] holds the messages of line 208 only. *)
Definition main_ (sched : list Actor) (w : World) (fs : FS) : MainRun :=
  let '(created, fs1) := os_Create output_name fs in
  match created with
  | Err e => mkMainRun (Fatal ("Failed to create output file: " +:+ e))
                       [] [] fs1 w
  | Ok outputFile =>
      let '(parsed, w1) := parseSitemap sitemapURL w in
      match parsed with
      | Panic msg => mkMainRun (Crashed msg) [] [] fs1 w1
      | Ret (Err e) =>
          mkMainRun (Fatal ("Error parsing sitemap: " +:+ e)) [] [] fs1 w1
      | Ret (Ok urls) =>
          let s := run urls DefaultParser 50 sched (init w1) in
          match crashed s with
          | Some msg => mkMainRun (Crashed msg) [] [] fs1 (world s)
          | None =>
              match main s with
              | MReturned results =>
                  let '(fs2, msgs) := write_results outputFile results fs1 in
                  mkMainRun Returned msgs [completion_message] fs2 (world s)
              | _ => mkMainRun Scraping [] [] fs1 (world s)
              end
          end
      end
  end.

End Driver.

(** An instance of package os for running [main]: files in memory, by
    name; the empty name cannot be created; a write to a file that does
    not exist fails. *)
Module DemoOs.

Definition create (name : string) (fs : list (string * string))
  : result string * list (string * string) :=
  if decide (name = "") then (Err "open : no such file or directory", fs)
  else (Ok name, (name, "") :: filter (fun kv => kv.1 <> name) fs).

Definition write (name s : string) (fs : list (string * string))
  : option error * list (string * string) :=
  if decide (name ∈ fs.*1)
  then (None, (fun kv => if decide (kv.1 = name) then (kv.1, kv.2 +:+ s)
                         else kv) <$> fs)
  else (Some "write: file already closed", fs).

(** The content of a file; the empty string when there is no such file. *)
Definition content (name : string) (fs : list (string * string)) : string :=
  default "" (snd <$> List.find (fun kv => bool_decide (kv.1 = name)) fs).

#[export] Instance oslibs : OsLibs := {|
  FS := list (string * string);
  File := string;
  os_Create := create;
  File_WriteString := write
|}.

(** The imports of [Demo] with a sitemap at the URL [main] reads. *)
Definition libs_with_sitemap (sm : Sitemap) : GoLibs := {|
  Rng := Z;
  Net := nat;
  Body := Demo.DBody;
  rand_Seed := @rand_Seed Demo.libs;
  rand_Int := @rand_Int Demo.libs;
  url_Parse := @url_Parse Demo.libs;
  client_Do := fun req n =>
    if decide (http.URL req = "https://www.espn.com/googlenewssitemap")
    then (Ok (http.mkResponse 200%Z req (Demo.Xml sm)), S n)
    else @client_Do Demo.libs req n;
  html_Parse := @html_Parse Demo.libs;
  xml_Decode := @xml_Decode Demo.libs
|}.

(** A sitemap whose pages all answer, and one with a page that does
    not. *)
Definition sitemap_ok : Sitemap :=
  mkSitemap [ mkSitemapUrl "https://x/a"; mkSitemapUrl "https://x/missing" ].
Definition sitemap_bad : Sitemap :=
  mkSitemap [ mkSitemapUrl "https://x/a"; mkSitemapUrl "https://down/" ].

Definition libs_ok : GoLibs := libs_with_sitemap sitemap_ok.
Definition libs_bad : GoLibs := libs_with_sitemap sitemap_bad.

Definition world_ok : @World libs_ok :=
  @mkWorld libs_ok 1700000000123456789%Z 0%Z 0%nat.
Definition world_bad : @World libs_bad :=
  @mkWorld libs_bad 1700000000123456789%Z 0%Z 0%nat.

(** A file system with a report of an earlier run. *)
Definition fs0 : list (string * string) :=
  [ ("notes.txt", "x"); ("image_results.txt", "stale") ].

(** A schedule that runs the second goroutine to its end, then the
    first, then lets the caller collect the signals. *)
Definition sched_ok : list (@Actor libs_ok) :=
  [Main; Main; Main; Main] ++ repeat (Go 1) 9 ++ repeat (Go 0) 9
  ++ [Main; Main; Main].
Definition sched_bad : list (@Actor libs_bad) :=
  [Main; Main; Main; Main] ++ repeat (Go 1) 9 ++ repeat (Go 0) 9
  ++ [Main; Main; Main].

End DemoOs.

(** ** Response bodies as streams

    [GetMediaData] above is the call on a response whose body has not
    been read.  A response is an object with a body stream:
    [goquery.NewDocumentFromResponse] reads the stream to its end and
    closes it before it returns, and a read on a closed body of net/http
    fails.  The definitions of this module follow lines 80-107 again, on
    a response that carries the state of its stream. *)
Module Live.

Section Stream.
Context {libs : GoLibs}.

(** A response and whether its body has been closed. *)
Record Response : Type := mkResponse {
  response : http.Response Body;
  closed : bool
}.

(** The error of a read on a closed body. *)
Definition read_on_closed : error := "http: read on closed response body".

(** [goquery.NewDocumentFromResponse]: parses what the stream still
    holds and leaves the body closed. *)
Definition NewDocumentFromResponse (res : Response)
  : result html.Node * Response :=
  (if closed res then Err read_on_closed
   else html_Parse (http.Body_ (response res)),
   mkResponse (response res) true).

(** [GetMediaData] (lines 80-107) with the response as it is left. *)
Definition GetMediaData (resp : Response) : result MediaData * Response :=
  let '(doc, resp) := NewDocumentFromResponse resp in
  match doc with
  | Err e => (Err e, resp)
  | Ok doc =>
      let imageURLs :=
        goquery.Each (goquery.Find doc goquery.img) collect_src [] in
      let result :=
        mkMediaData (http.URL (http.Request_ (response resp))) imageURLs
                    (http.StatusCode (response resp)) "" in
      let '(m, _) :=
        goquery.Selection_Attr (goquery.Find doc goquery.meta_description)
                               "content" in
      (Ok (mkMediaData (URL result) (ImageURLs result) (StatusCode result) m),
       resp)
  end.

(** A response as the client hands it out. *)
Definition fresh (r : http.Response Body) : Response := mkResponse r false.

End Stream.

End Live.

(** ** Calls of [randomUserAgent] from several goroutines

    Lines 50 and 51 are two operations on the global source of math/rand,
    each atomic (the source is locked), and the goroutines of
    [scrapeImages] call the function at the same time: the operations of
    different calls interleave. *)
Module Calls.

Section Interleaving.
Context {libs : GoLibs}.

(** Where a call stands: before the [rand.Seed] of line 50, before the
    [rand.Int] of line 51, or returned. *)
Inductive CallPC : Type :=
| AtSeed
| AtInt
| Answered (o : Outcome string).

(** The global source and the calls in progress. *)
Record State : Type := mkState {
  source : Rng;
  calls : list CallPC
}.

Definition begin (g : Rng) (n : nat) : State := mkState g (replicate n AtSeed).

(** One operation of call [i], made when the clock reads [nanos]: line 50
    reads the clock and replaces the state of the source, lines 51-52
    draw from the source as it is then and index the pool. *)
Definition step (i : nat) (nanos : Z) (s : State) : State :=
  match calls s !! i with
  | Some AtSeed =>
      mkState (rand_Seed (time_Unix nanos)) (<[i := AtInt]> (calls s))
  | Some AtInt =>
      let '(r, g) := rand_Int (source s) in
      let randNum := Z.rem r (Z.of_nat (length userAgents)) in
      mkState g (<[i := Answered (index userAgents randNum)]> (calls s))
  | _ => s
  end.

(** A schedule: which call makes the next operation, and the reading of
    the clock at that moment. *)
Fixpoint run (sched : list (nat * Z)) (s : State) : State :=
  match sched with
  | [] => s
  | (i, nanos) :: rest => run rest (step i nanos s)
  end.

(** Call [i] is not overlapped in [sched]: its two operations follow each
    other directly, the first when the clock reads [nanos]. *)
Definition unbroken (sched : list (nat * Z)) (i : nat) (nanos : Z) : Prop :=
  exists before after nanos',
    sched = before ++ (i, nanos) :: (i, nanos') :: after /\
    i ∉ before.*1.

(** The clock reads [nanos] within the second [sec]. *)
Definition in_second (sec nanos : Z) : Prop :=
  (sec * 1000000000 <= nanos < (sec + 1) * 1000000000)%Z.

(** What a call answers when the source has just been seeded with
    [sec]. *)
Definition agent_of_second (sec : Z) : Outcome string :=
  index userAgents
        (Z.rem (rand_Int (rand_Seed sec)).1 (Z.of_nat (length userAgents))).

End Interleaving.

End Calls.

(** * Properties *)

(** ** Lists and trees *)

Lemma fold_left_snoc {A B : Type} (f : A -> B) (l : list A) (acc : list B) :
  fold_left (fun ys x => ys ++ [f x]) l acc = acc ++ (f <$> l).
Proof.
  revert acc. induction l as [|x l IH]; intros acc; simpl.
  - by rewrite app_nil_r.
  - rewrite IH, <- app_assoc. reflexivity.
Qed.

Lemma Node_forall_ind (P : html.Node -> Prop) :
  (forall t d a cs, Forall P cs -> P (html.mkNode t d a cs)) ->
  forall n, P n.
Proof.
  intros step. fix IH 1. intros [t d a cs]. apply step.
  induction cs as [|c cs IHcs]; constructor; [apply IH | apply IHcs].
Qed.

Lemma flat_map_ext_Forall {A B : Type} (f g : A -> list B) (l : list A) :
  Forall (fun x => f x = g x) l -> flat_map f l = flat_map g l.
Proof.
  induction 1 as [|x l Hx _ IH]; simpl; [reflexivity|].
  by rewrite Hx, IH.
Qed.

Lemma filter_flat_map {A B : Type} (p : B -> bool) (f : A -> list B)
    (l : list A) :
  List.filter p (flat_map f l) = flat_map (fun x => List.filter p (f x)) l.
Proof.
  induction l as [|x l IH]; simpl; [reflexivity|].
  by rewrite List.filter_app, IH.
Qed.

(** [MatchAll] lists the matching nodes of a subtree in document order. *)
Lemma MatchAll_document_order (sel : goquery.Selector) (n : html.Node) :
  goquery.MatchAll sel n =
  List.filter (goquery.matches sel) (n :: Spec.descendants n).
Proof.
  induction n as [t d a cs IH] using Node_forall_ind.
  cbn [goquery.MatchAll Spec.descendants List.filter].
  assert (flat_map (goquery.MatchAll sel) cs =
          List.filter (goquery.matches sel)
            (flat_map (fun c => c :: Spec.descendants c) cs)) as ->.
  { rewrite filter_flat_map. by apply flat_map_ext_Forall. }
  by destruct (goquery.matches sel (html.mkNode t d a cs)).
Qed.

Lemma matches_element (sel : goquery.Selector) (n : html.Node) :
  goquery.matches sel n = true -> html.is_element n = true.
Proof.
  induction sel as [tag|key val|a IHa b IHb]; simpl; intros H.
  - by apply andb_prop in H as [-> _].
  - by apply andb_prop in H as [-> _].
  - apply andb_prop in H as [Ha _]. by apply IHa.
Qed.

Lemma leaf_closed_non_element (n : html.Node) :
  Spec.leaf_closed n = true -> html.is_element n = false ->
  Spec.descendants n = [].
Proof.
  destruct n as [t d a cs]. unfold html.is_element. simpl.
  destruct t; try discriminate; destruct cs; simpl; congruence.
Qed.

(** [Find] lists the matching nodes below the root in document order. *)
Lemma Find_document_order (sel : goquery.Selector) (root : html.Node) :
  Spec.parse_tree root = true ->
  goquery.Find root sel =
  List.filter (goquery.matches sel) (Spec.descendants root).
Proof.
  destruct root as [t d a cs]. unfold Spec.parse_tree, goquery.Find.
  cbn [html.Children Spec.descendants]. intros Hcs.
  rewrite filter_flat_map. apply flat_map_ext_Forall.
  rewrite forallb_forall in Hcs. apply Forall_forall. intros c Hc.
  rewrite MatchAll_document_order.
  destruct (html.is_element c) eqn:He; [reflexivity|].
  apply list_elem_of_In, Hcs in Hc.
  rewrite (leaf_closed_non_element c Hc He). simpl.
  destruct (goquery.matches sel c) eqn:Hm; [|reflexivity].
  apply matches_element in Hm. congruence.
Qed.

Lemma HasPrefix_prefix (s p : string) :
  goquery.HasPrefix s p = String.prefix p s.
Proof.
  revert s. induction p as [|c p IH]; intros [|d s]; simpl; try reflexivity.
  destruct (decide (c = d)) as [->|Hne].
  - destruct (Ascii.ascii_dec d d); [apply IH | congruence].
  - destruct (Ascii.ascii_dec c d); [congruence | reflexivity].
Qed.

Lemma matches_img (n : html.Node) :
  goquery.matches goquery.img n = Spec.is_img n.
Proof. reflexivity. Qed.

Lemma matches_meta_description (n : html.Node) :
  goquery.matches goquery.meta_description n = Spec.is_meta_description n.
Proof.
  unfold goquery.meta_description, Spec.is_meta_description. simpl.
  destruct (html.is_element n); simpl; [|reflexivity].
  f_equal. induction (html.Attr n) as [|a l IH]; simpl; [reflexivity|].
  rewrite IH, HasPrefix_prefix. f_equal. f_equal.
  destruct (String.prefix "description" (html.Val a)); reflexivity.
Qed.

Lemma getAttributeValue_attribute (key : string) (n : html.Node) :
  goquery.getAttributeValue key (html.Attr n) =
  match Spec.attribute key n with
  | Some v => (v, true)
  | None => ("", false)
  end.
Proof.
  unfold Spec.attribute. induction (html.Attr n) as [|a l IH]; simpl.
  - reflexivity.
  - destruct (decide (html.Key a = key)) as [Hk|Hk].
    + by rewrite bool_decide_eq_true_2.
    + by rewrite bool_decide_eq_false_2.
Qed.

(** ** The sequential functions *)

Section Sequential.
Context {libs : GoLibs}.

Abbreviation Response := (http.Response Body).

Lemma index_Ret {A : Type} (xs : list A) (i : Z) :
  (0 <= i < Z.of_nat (length xs))%Z ->
  exists x, index xs i = Ret x /\ xs !! Z.to_nat i = Some x.
Proof.
  intros [Hlo Hhi]. unfold index.
  destruct (Z.ltb_spec i 0) as [?|_]; [lia|].
  destruct (xs !! Z.to_nat i) as [x|] eqn:Hx; [eauto|].
  apply lookup_ge_None in Hx. lia.
Qed.

Lemma time_Unix_second (t sec : Z) :
  (sec * 1000000000 <= t < (sec + 1) * 1000000000)%Z -> time_Unix t = sec.
Proof.
  intros H. unfold time_Unix. symmetry.
  apply Z.div_unique with (r := (t - sec * 1000000000)%Z); lia.
Qed.

(** The string drawn and the state of the source after a call depend on
    the second of the clock only. *)
Lemma randomUserAgent_eq (w : World) :
  randomUserAgent w =
  (index userAgents
     (Z.rem (rand_Int (rand_Seed (time_Unix (now w)))).1
            (Z.of_nat (length userAgents))),
   set_rng (rand_Int (rand_Seed (time_Unix (now w)))).2 w).
Proof.
  unfold randomUserAgent.
  by destruct (rand_Int (rand_Seed (time_Unix (now w)))).
Qed.

Lemma randomUserAgent_in_pool (w : World) :
  (forall g, 0 <= (rand_Int g).1)%Z ->
  exists ua, (randomUserAgent w).1 = Ret ua /\ ua ∈ userAgents.
Proof.
  intros Hpos. rewrite randomUserAgent_eq. cbn [fst].
  set (r := (rand_Int (rand_Seed (time_Unix (now w)))).1).
  destruct (index_Ret userAgents (Z.rem r (Z.of_nat (length userAgents))))
    as (ua & Hua & Hin).
  { apply Z.rem_bound_pos; [apply Hpos | simpl; lia]. }
  exists ua. split; [exact Hua|]. by eapply list_elem_of_lookup_2.
Qed.

(** A URL that does not parse: line 66 dereferences the nil request. *)
Lemma makeRequest_malformed (url : string) (e : error) (w : World) :
  url_Parse url = Err e -> makeRequest url w = (Panic nil_dereference, w).
Proof.
  intros H. unfold makeRequest, http_NewRequest. by rewrite H.
Qed.

(** A URL that parses: the outcome is what the client answers to a GET
    request carrying a User-Agent of the pool, whichever status code the
    response has. *)
Lemma makeRequest_well_formed (url u : string) (w : World) :
  (forall g, 0 <= (rand_Int g).1)%Z ->
  url_Parse url = Ok u ->
  exists ua, ua ∈ userAgents /\
    (makeRequest url w).1 =
    Ret (client_Do (http.mkRequest "GET" u [("User-Agent", ua)]) (net w)).1.
Proof.
  intros Hpos Hu. destruct (randomUserAgent_in_pool w Hpos) as (ua & Hua & Hin).
  exists ua. split; [exact Hin|].
  unfold makeRequest, http_NewRequest. rewrite Hu.
  destruct (randomUserAgent w) as [o w1] eqn:Hr. simpl in Hua. subst o.
  assert (net w1 = net w) as ->.
  { rewrite randomUserAgent_eq in Hr. by inversion Hr. }
  cbn. destruct (client_Do _ (net w)) as [[res|e] n]; reflexivity.
Qed.

Lemma Each_collect_src (sel : list html.Node) (acc : list string) :
  goquery.Each sel collect_src acc = acc ++ omap (Spec.attribute "src") sel.
Proof.
  unfold goquery.Each. generalize 0. revert acc.
  induction sel as [|n sel IH]; intros acc i; simpl.
  - by rewrite app_nil_r.
  - rewrite IH. unfold collect_src, goquery.Selection_Attr.
    rewrite getAttributeValue_attribute.
    destruct (Spec.attribute "src" n); simpl; [|reflexivity].
    by rewrite <- app_assoc.
Qed.

Lemma Selection_Attr_first (p : html.Node -> bool) (l : list html.Node)
    (key : string) :
  (goquery.Selection_Attr (List.filter p l) key).1 =
  match List.find p l with
  | Some n => default "" (Spec.attribute key n)
  | None => ""
  end.
Proof.
  induction l as [|n l IH]; simpl; [reflexivity|].
  destruct (p n); simpl; [|exact IH].
  rewrite getAttributeValue_attribute. by destruct (Spec.attribute key n).
Qed.

(** The record [GetMediaData] builds from a body that parses. *)
Lemma GetMediaData_Ok (resp : Response) (doc : html.Node) :
  html_Parse (http.Body_ resp) = Ok doc ->
  GetMediaData resp =
  Ok (mkMediaData
        (http.URL (http.Request_ resp))
        (omap (Spec.attribute "src") (goquery.Find doc goquery.img))
        (http.StatusCode resp)
        (goquery.Selection_Attr (goquery.Find doc goquery.meta_description)
                                "content").1).
Proof.
  intros H. unfold GetMediaData, NewDocumentFromResponse. rewrite H.
  rewrite Each_collect_src. simpl.
  by destruct (goquery.Selection_Attr _ "content").
Qed.

Lemma GetMediaData_Err (resp : Response) (e : error) :
  GetMediaData resp = Err e <-> html_Parse (http.Body_ resp) = Err e.
Proof.
  unfold GetMediaData, NewDocumentFromResponse.
  destruct (html_Parse (http.Body_ resp)) as [doc|e'].
  - destruct (goquery.Selection_Attr _ "content"). split; discriminate.
  - split; congruence.
Qed.

(** C6: for a body that parses, the record lists the [src] of every
    image element that has one, in document order; image elements without
    [src] contribute nothing. *)
Theorem GetMediaData_image_refs (resp : Response) (doc : html.Node) :
  html_Parse (http.Body_ resp) = Ok doc ->
  Spec.parse_tree doc = true ->
  exists md, GetMediaData resp = Ok md /\ ImageURLs md = Spec.image_refs doc.
Proof.
  intros Hdoc Hwf. eexists. split; [by apply GetMediaData_Ok|].
  cbn [ImageURLs]. rewrite Find_document_order by exact Hwf.
  reflexivity.
Qed.

(** C7: for a body that parses, the record's meta snippet is the
    [content] of the first meta element whose [name] starts with
    ["description"], and the empty string when there is none; the call
    succeeds either way. *)
Theorem GetMediaData_meta_snippet (resp : Response) (doc : html.Node) :
  html_Parse (http.Body_ resp) = Ok doc ->
  Spec.parse_tree doc = true ->
  exists md, GetMediaData resp = Ok md /\ meta md = Spec.meta_snippet doc.
Proof.
  intros Hdoc Hwf. eexists. split; [by apply GetMediaData_Ok|].
  cbn [meta]. rewrite Find_document_order by exact Hwf.
  unfold Spec.meta_snippet.
  rewrite <- (Selection_Attr_first Spec.is_meta_description).
  f_equal. f_equal. apply List.filter_ext. intros n.
  apply matches_meta_description.
Qed.

(** C8: [GetMediaData] fails exactly when parsing the body fails, and
    with that error; a record it returns carries the status code of the
    response and the URL of the request the response belongs to. *)
Theorem GetMediaData_error_and_metadata (resp : Response) :
  (forall e, GetMediaData resp = Err e <-> html_Parse (http.Body_ resp) = Err e)
  /\ (forall md, GetMediaData resp = Ok md ->
        StatusCode md = http.StatusCode resp /\
        URL md = http.URL (http.Request_ resp)).
Proof.
  split; [apply GetMediaData_Err|].
  intros md Hmd. destruct (html_Parse (http.Body_ resp)) as [doc|e] eqn:Hdoc.
  - rewrite (GetMediaData_Ok resp doc Hdoc) in Hmd. by inversion Hmd.
  - apply GetMediaData_Err in Hdoc. congruence.
Qed.

(** On unread bodies the result of [GetMediaData] is a function of the
    document alone:
    two responses with the same status code, the same final URL and the
    same body content give the same result, whatever else differs. *)
Theorem GetMediaData_deterministic (resp1 resp2 : Response) :
  html_Parse (http.Body_ resp1) = html_Parse (http.Body_ resp2) ->
  http.StatusCode resp1 = http.StatusCode resp2 ->
  http.URL (http.Request_ resp1) = http.URL (http.Request_ resp2) ->
  GetMediaData resp1 = GetMediaData resp2.
Proof.
  intros Hb Hs Hu. unfold GetMediaData, NewDocumentFromResponse.
  by rewrite Hb, Hs, Hu.
Qed.

(** When the fetch and the decoding succeed [parseSitemap] returns the
    text of the location entries in document order; it returns an error
    exactly when [makeRequest] returns one or the decoder does, and it is
    that error.  A panic of [makeRequest] is a panic of [parseSitemap]. *)
Lemma parseSitemap_locations (sitemapURL : string) (w : World) :
  (forall resp sm,
      (makeRequest sitemapURL w).1 = Ret (Ok resp) ->
      xml_Decode (http.Body_ resp) = Ok sm ->
      (parseSitemap sitemapURL w).1 = Ret (Ok (Spec.locations sm)))
  /\ (forall e,
        (parseSitemap sitemapURL w).1 = Ret (Err e) <->
        (makeRequest sitemapURL w).1 = Ret (Err e) \/
        exists resp, (makeRequest sitemapURL w).1 = Ret (Ok resp) /\
                     xml_Decode (http.Body_ resp) = Err e)
  /\ (forall msg,
        (parseSitemap sitemapURL w).1 = Panic msg <->
        (makeRequest sitemapURL w).1 = Panic msg).
Proof.
  unfold parseSitemap, Spec.locations.
  destruct (makeRequest sitemapURL w) as [[[resp|e']|msg] w1]; cbn [fst].
  - split_and!.
    + intros ? sm [= <-] ->. cbn. by rewrite fold_left_snoc.
    + intros e. destruct (xml_Decode (http.Body_ resp)) as [sm|e''] eqn:Hd;
        cbn; split.
      * discriminate.
      * intros [[=]|(r & [= <-] & H)]. congruence.
      * intros [= ->]. right. eauto.
      * intros [[=]|(r & [= <-] & H)]. congruence.
    + intros m. destruct (xml_Decode (http.Body_ resp)); split; discriminate.
  - split_and!; [discriminate| |split; discriminate]. intros e. split.
    + intros [= ->]. by left.
    + intros [[= ->]|(r & [=] & _)]. reflexivity.
  - split_and!; [discriminate| |split; congruence]. intros e.
    split; [discriminate|]. intros [[=]|(r & [=] & _)].
Qed.

(** Calls that run alone: with a source whose draws are not negative, two
    calls that read
    the clock within the same second return the same string, it is one of
    the three of the pool, and each call leaves the global source in the
    state one draw after seeding with that second. *)
Theorem randomUserAgent_same_second (w1 w2 : World) (sec : Z) :
  (forall g, 0 <= (rand_Int g).1)%Z ->
  (sec * 1000000000 <= now w1 < (sec + 1) * 1000000000)%Z ->
  (sec * 1000000000 <= now w2 < (sec + 1) * 1000000000)%Z ->
  exists ua, ua ∈ userAgents /\ length userAgents = 3 /\
    (randomUserAgent w1).1 = Ret ua /\
    (randomUserAgent w2).1 = Ret ua /\
    rng (randomUserAgent w1).2 = (rand_Int (rand_Seed sec)).2 /\
    rng (randomUserAgent w2).2 = (rand_Int (rand_Seed sec)).2.
Proof.
  intros Hpos H1 H2.
  destruct (randomUserAgent_in_pool w1 Hpos) as (ua & Hua & Hin).
  exists ua. rewrite !randomUserAgent_eq in *.
  rewrite (time_Unix_second _ _ H1) in *. rewrite (time_Unix_second _ _ H2).
  by repeat split.
Qed.

End Sequential.

(** ** The concurrent run of [scrapeImages] *)

Section ScrapeFacts.
Context {libs : GoLibs}.
Variable urls : list string.
Variable parser : Parser.
Variable concurrency : Z.

Lemma count_nil (P : Task -> bool) : count P [] = 0.
Proof. reflexivity. Qed.

Lemma count_cons (P : Task -> bool) (t : Task) (l : list Task) :
  count P (t :: l) = (if P t then 1 else 0) + count P l.
Proof.
  unfold count. rewrite filter_cons.
  destruct (decide (P t = true)) as [->|H]; [reflexivity|].
  by destruct (P t).
Qed.

Lemma count_app (P : Task -> bool) (l1 l2 : list Task) :
  count P (l1 ++ l2) = count P l1 + count P l2.
Proof. unfold count. by rewrite filter_app, length_app. Qed.

Lemma count_le_length (P : Task -> bool) (l : list Task) :
  count P l <= length l.
Proof. apply length_filter. Qed.

Lemma count_zero (P : Task -> bool) (l : list Task) :
  count P l = 0 -> Forall (fun t => P t = false) l.
Proof.
  induction l as [|t l IH]; [constructor|].
  rewrite count_cons. destruct (P t) eqn:Ht; [discriminate|].
  intros H. constructor; [exact Ht | by apply IH].
Qed.

Lemma count_full (P : Task -> bool) (l : list Task) :
  length l <= count P l -> Forall (fun t => P t = true) l.
Proof.
  induction l as [|t l IH]; [constructor|].
  rewrite count_cons. pose proof (count_le_length P l).
  destruct (P t) eqn:Ht; simpl; intros H'; [|lia].
  constructor; [exact Ht | apply IH; lia].
Qed.

(** The tasks after goroutine [i] has moved to [p]. *)
Lemma tasks_set_pc (l1 l2 : list Task) (t : Task) (p : TaskPC) (s : State) :
  tasks s = l1 ++ t :: l2 ->
  tasks (set_pc (length l1) p s) = l1 ++ mkTask (task_url t) p :: l2.
Proof.
  intros H. unfold set_pc. cbn [tasks]. rewrite H.
  rewrite (alter_app_r_alt _ l1 (t :: l2) (length l1)) by lia.
  by rewrite Nat.sub_diag.
Qed.

(** A step of goroutine [i] is a step of the task standing at position
    [i]. *)
Lemma step_Go_inv (i : nat) (s s' : State) :
  step urls parser concurrency (Go i) s = Some s' ->
  exists l1 t l2,
    tasks s = l1 ++ t :: l2 /\ i = length l1 /\ crashed s = None /\
    step_task urls parser concurrency i t s = Some s'.
Proof.
  unfold step. destruct (crashed s); [discriminate|].
  destruct (tasks s !! i) as [t|] eqn:Ht; [|discriminate].
  intros H. apply list_elem_of_split_length in Ht as (l1 & l2 & -> & ->).
  eauto 8.
Qed.

Lemma reachable_run (w : World) (sched : list Actor) (s : State) :
  reachable urls parser concurrency w s ->
  reachable urls parser concurrency w (run urls parser concurrency sched s).
Proof.
  revert s. induction sched as [|a sched IH]; intros s Hs; [exact Hs|].
  simpl. apply IH.
  destruct (step urls parser concurrency a s) as [s'|] eqn:Hst; simpl.
  - by eapply reachable_step.
  - exact Hs.
Qed.

Abbreviation st := (step urls parser concurrency).
Abbreviation reach := (reachable urls parser concurrency).

(** Case analysis on one step: the caller, a goroutine at each of its
    statements, the environment. *)
Ltac step_cases H :=
  match type of H with
  | step _ _ _ ?a ?s = Some ?s' =>
      destruct a as [|?i|?f];
      [ unfold step in H;
        destruct (crashed s) eqn:?Hcr; [discriminate|];
        unfold step_main in H;
        destruct (main s) as [|[|?u ?rest]|[|?n]|?rs] eqn:?Hmain;
        [ destruct (concurrency <? 0)%Z eqn:?Hneg | | | | destruct (worklist s) as [|?x ?wl] eqn:?Hwl | ];
        simplify_eq
      | apply step_Go_inv in H as (?l1 & [?u ?p] & ?l2 & ?Hts & -> & ?Hcr & H);
        unfold step_task in H; cbn [pc task_url] in H;
        destruct p as [| |?resp|?d|?d|?d ?new|?d|?d|?e|?e];
        [ destruct (Z.of_nat (tokens s) <? concurrency)%Z eqn:?Hroom
        | destruct (makeRequest u (world s)) as [[[?resp|?err]|?msg] ?w'] eqn:?Hreq
        | destruct (Parser_GetMediaData parser resp) as [?d|?err] eqn:?Hparse
        | destruct (mu s) eqn:?Hmu
        |
        |
        | destruct (mu s) eqn:?Hmu
        | destruct (length (worklist s) <? length urls)%nat eqn:?Hfree
        | destruct (tokens s) as [|?k] eqn:?Htok; [|destruct e]
        | ];
        simplify_eq
      | unfold step in H; destruct (crashed s) eqn:?Hcr; simplify_eq ]
  end.

Ltac tasks_simpl :=
  repeat first
    [ erewrite tasks_set_pc
        by (cbn [tasks set_main set_tokens set_worklist set_mu set_results
                 set_world set_crashed]; eassumption)
    | progress cbn [tasks tokens main worklist mu results world crashed
                    set_main set_tokens set_worklist set_mu set_results
                    set_world set_crashed spawn] ];
  cbn [set_pc tokens main worklist mu results world crashed
       set_main set_tokens set_worklist set_mu set_results set_world
       set_crashed].

Ltac bool_facts :=
  repeat match goal with
    | H : (_ <? _)%Z = true |- _ => apply Z.ltb_lt in H
    | H : (_ <? _)%Z = false |- _ => apply Z.ltb_ge in H
    | H : (_ <? _)%nat = true |- _ => apply Nat.ltb_lt in H
    | H : (_ <? _)%nat = false |- _ => apply Nat.ltb_ge in H
    end.

Ltac count_simpl :=
  rewrite ?count_app, ?count_cons, ?count_nil in *;
  cbn [holds_token holds_mu signalled failed pc task_url] in *.

Lemma gate_inv_step (a : Actor) (s s' : State) :
  gate_inv concurrency s -> st a s = Some s' -> gate_inv concurrency s'.
Proof.
  unfold gate_inv, inflight. intros [Htk Hcap] H. step_cases H; tasks_simpl.
  all: try (split; assumption).
  all: rewrite ?Hts in *; count_simpl; bool_facts.
  all: split; lia.
Qed.

Lemma signal_inv_step (a : Actor) (s s' : State) :
  signal_inv urls s -> st a s = Some s' -> signal_inv urls s'.
Proof.
  unfold signal_inv. intros (Hsig & Hwait & Hsp) H.
  step_cases H; tasks_simpl.
  all: rewrite ?Hmain in *; cbn [received] in *.
  all: try (split_and!; assumption).
  all: rewrite ?Hts in *; rewrite ?fmap_app, ?fmap_cons in *;
       count_simpl; bool_facts.
  all: try specialize (Hwait _ eq_refl).
  all: rewrite ?length_app in *; cbn [length fmap list_fmap] in *;
       rewrite ?app_nil_r in *.
  all: split_and!; try done; try lia.
  all: try (intros ? [= <-]; lia).
  all: try (destruct (main s); first [done | by destruct l1]).
  all: try (rewrite ?Hsp; done).
  all: rewrite <- ?Hsp, <- app_assoc; done.
Qed.

Lemma results_inv_step (a : Actor) (s s' : State) :
  results_inv s -> st a s = Some s' -> results_inv s'.
Proof.
  unfold results_inv. intros (Hmu & Hwr & Hres) H.
  step_cases H; tasks_simpl.
  all: try (split_and!; assumption).
  1: { (* a goroutine is started *)
    split_and!.
    - count_simpl. lia.
    - apply Forall_app. split; [assumption|]. repeat constructor. discriminate.
    - rewrite omap_app. cbn. by rewrite app_nil_r. }
  all: rewrite Hts in *; apply Forall_app in Hwr as [Hw1 Hw2];
       apply Forall_cons in Hw2 as [Hwt Hw2];
       rewrite omap_app in *; cbn [omap list_omap stored pc] in *;
       count_simpl; rewrite ?Hmu0 in *.
  all: try (split_and!;
         [ lia
         | apply Forall_app; split; [assumption|];
           apply Forall_cons; split; [|assumption];
           cbn [pc]; intros ? ? [=]; by subst
         | assumption ]).
  (* line 159 stores: nobody else is between lines 157 and 160 *)
  specialize (Hwt _ _ eq_refl) as ->.
  assert (count holds_mu l1 = 0 /\ count holds_mu l2 = 0) as [Hc1 Hc2]
    by (destruct (mu s); lia).
  assert (forall l, count holds_mu l = 0 ->
            Forall (fun t => forall d0 new0, pc t = AtAppendWrite d0 new0 ->
                      new0 = (results s ++ [d]) ++ [d0]) l) as Hnone.
  { intros l Hl. apply count_zero in Hl. eapply Forall_impl; [exact Hl|].
    intros t Ht d0 new0 Hpc. unfold holds_mu in Ht. rewrite Hpc in Ht.
    discriminate. }
  split_and!.
  - assumption.
  - apply Forall_app. split; [by apply Hnone|].
    apply Forall_cons. split; [discriminate | by apply Hnone].
  - etrans; [|apply Permutation_middle]. rewrite <- Hres. symmetry.
    apply Permutation_cons_append.
Qed.

Lemma failure_inv_step (a : Actor) (s s' : State) :
  failure_inv parser s -> st a s = Some s' -> failure_inv parser s'.
Proof.
  unfold failure_inv. intros Hf H. step_cases H; tasks_simpl.
  all: try assumption.
  1: { apply Forall_app. split; [assumption|]. by repeat constructor. }
  all: rewrite Hts in *; apply Forall_app in Hf as [Hf1 Hf2];
       apply Forall_cons in Hf2 as [Hft Hf2];
       apply Forall_app; split; [assumption|];
       apply Forall_cons; split; [|assumption];
       cbn [task_url] in *; intros Hnever; specialize (Hft Hnever);
       unfold on_failure_path in *; cbn [pc] in *.
  all: try done.
  - apply (Hnever (world s)). by rewrite Hreq.
  - destruct Hft as [e He]. congruence.
Qed.

Lemma provenance_inv_step (a : Actor) (s s' : State) :
  provenance_inv parser s -> st a s = Some s' -> provenance_inv parser s'.
Proof.
  unfold provenance_inv. intros Hp H. step_cases H; tasks_simpl.
  all: try assumption.
  1: { apply Forall_app. split; [assumption|]. by repeat constructor. }
  all: rewrite Hts in *; apply Forall_app in Hp as [Hp1 Hp2];
       apply Forall_cons in Hp2 as [Hpt Hp2];
       apply Forall_app; split; [assumption|];
       apply Forall_cons; split; [|assumption];
       unfold provenance in *; cbn [pc task_url] in *.
  all: try done.
  - exists (world s). by rewrite Hreq.
  - destruct Hpt as [w Hw]. by exists w, resp.
Qed.

Lemma returned_inv_step (a : Actor) (s s' : State) :
  signal_inv urls s -> returned_inv s -> st a s = Some s' -> returned_inv s'.
Proof.
  unfold returned_inv. intros (Hsig & _ & Hsp) Hret H.
  step_cases H; tasks_simpl.
  all: try assumption.
  all: try (intros ? [=]; congruence).
  (* line 159 stores: the caller is still waiting for this goroutine *)
  intros rs Hmain. exfalso. rewrite Hmain in *. cbn [received] in *.
  rewrite Hts in *. rewrite <- Hsp in Hsig. rewrite length_fmap in Hsig.
  rewrite length_app in Hsig. count_simpl. cbn [length] in Hsig.
  pose proof (count_le_length signalled l1).
  pose proof (count_le_length signalled l2). lia.
Qed.

(** What holds in every state of every run. *)
Lemma reachable_inv (w : World) (s : State) :
  reach w s ->
  gate_inv concurrency s /\ signal_inv urls s /\ results_inv s /\
  failure_inv parser s /\ provenance_inv parser s /\ returned_inv s.
Proof.
  induction 1 as [|s a s' _ (Hg & Hs & Hr & Hf & Hp & Hret) Hstep].
  - unfold gate_inv, signal_inv, results_inv, failure_inv, provenance_inv,
      returned_inv, inflight. cbn.
    split_and!; try done; try constructor. lia.
  - split_and!.
    + by eapply gate_inv_step.
    + by eapply signal_inv_step.
    + by eapply results_inv_step.
    + by eapply failure_inv_step.
    + by eapply provenance_inv_step.
    + by eapply returned_inv_step.
Qed.

Lemma count_lookup (P : Task -> bool) (l : list Task) (i : nat) (t : Task) :
  l !! i = Some t -> P t = true -> 1 <= count P l.
Proof.
  intros Hl Ht. apply list_elem_of_split_length in Hl as (l1 & l2 & -> & _).
  rewrite count_app, count_cons, Ht. lia.
Qed.

(** When the caller has returned every goroutine has sent its signal. *)
Lemma returned_all_signalled (w : World) (s : State) (rs : list MediaData) :
  reach w s -> main s = MReturned rs ->
  task_url <$> tasks s = urls /\ Forall (fun t => signalled t = true) (tasks s).
Proof.
  intros Hs Hmain.
  destruct (reachable_inv w s Hs) as (_ & (Hsig & _ & Hsp) & _).
  rewrite Hmain in *. cbn [received] in Hsig. split; [exact Hsp|].
  apply count_full. rewrite <- Hsig, <- Hsp, length_fmap. lia.
Qed.

(** A goroutine that took a failure path never sends its signal, so the
    caller waits for it for ever. *)
Lemma failed_never_returns (w : World) (s : State) :
  reach w s -> Exists (fun t => failed t = true) (tasks s) ->
  returned s = false.
Proof.
  intros Hs Hex. unfold returned.
  destruct (main s) as [| | |rs] eqn:Hmain; try reflexivity.
  destruct (returned_all_signalled w s rs Hs Hmain) as [_ Hall].
  apply Exists_exists in Hex as (t & Hin & Ht).
  rewrite Forall_forall in Hall. specialize (Hall t Hin).
  unfold failed, signalled in *. destruct (pc t) as [| | | | | | | |[]|[]];
    discriminate.
Qed.

(** With a URL that cannot produce a record among the inputs the caller
    never returns. *)
Lemma doomed_never_returns (w : World) (s : State) (u : string) :
  u ∈ urls -> never_succeeds parser u -> reach w s -> returned s = false.
Proof.
  intros Hu Hnever Hs. unfold returned.
  destruct (main s) as [| | |rs] eqn:Hmain; try reflexivity.
  destruct (returned_all_signalled w s rs Hs Hmain) as [Hsp Hall].
  destruct (reachable_inv w s Hs) as (_ & _ & _ & Hf & _).
  rewrite <- Hsp in Hu. apply list_elem_of_fmap in Hu as (t & -> & Hin).
  unfold failure_inv in Hf. rewrite Forall_forall in Hf, Hall.
  specialize (Hf t Hin Hnever). specialize (Hall t Hin).
  unfold on_failure_path, signalled in *.
  destruct (pc t) as [| | | | | | | |[]|[]]; done.
Qed.

(** A call in which no state has the caller returned returns under no
    schedule. *)
Lemma scrapeImages_None (sched : list Actor) (w : World) :
  (forall s, reach w s -> returned s = false) ->
  scrapeImages urls parser concurrency sched w = None.
Proof.
  intros H. unfold scrapeImages.
  specialize (H _ (reachable_run w sched _ (reachable_init _ _ _ w))).
  unfold returned in H.
  by destruct (main (run urls parser concurrency sched (init w))).
Qed.

(** What the caller returns when it does: one record per input URL, the
    records the goroutines stored, each the parser's result on a response
    to its goroutine's URL; no goroutine has failed. *)
Lemma returned_records (w : World) (s : State) (rs : list MediaData) :
  reach w s -> main s = MReturned rs ->
  rs = results s /\ length rs = length urls /\
  rs ≡ₚ omap stored (tasks s) /\
  Forall (fun t => failed t = false) (tasks s) /\
  Forall (fun d => exists u, u ∈ urls /\ produced parser u d) rs.
Proof.
  intros Hs Hmain.
  destruct (returned_all_signalled w s rs Hs Hmain) as [Hsp Hall].
  destruct (reachable_inv w s Hs) as (_ & _ & (_ & _ & Hres) & _ & Hp & Hret).
  rewrite (Hret rs Hmain).
  assert (Forall (fun t => exists d, stored t = Some d /\
                    produced parser (task_url t) d) (tasks s)) as Hst.
  { unfold provenance_inv in Hp. rewrite Forall_forall in *. intros t Hin.
    specialize (Hall t Hin). specialize (Hp t Hin).
    unfold signalled, stored, provenance in *.
    destruct (pc t) as [| | | | | | | |[]|[]]; try discriminate; eauto. }
  split_and!.
  - reflexivity.
  - rewrite Hres, <- Hsp, length_fmap. clear -Hst.
    induction Hst as [|t l (d & Hd & _) _ IH]; [reflexivity|].
    cbn. rewrite Hd. cbn. by rewrite IH.
  - exact Hres.
  - eapply Forall_impl; [exact Hall|]. intros t. unfold signalled, failed.
    destruct (pc t) as [| | | | | | | |[]|[]]; done.
  - rewrite Hres. rewrite <- Hsp. clear -Hst.
    induction Hst as [|t l (d & Hd & Hprod) _ IH]; [constructor|].
    cbn. rewrite Hd. cbn. constructor.
    + exists (task_url t). split; [apply list_elem_of_here | exact Hprod].
    + eapply Forall_impl; [exact IH|]. intros d' (u & Hu & Hpu).
      exists u. split; [by apply list_elem_of_further | exact Hpu].
Qed.

(** *** When nothing fails the call returns *)

Lemma success_inv_step (a : Actor) (s s' : State) :
  (0 <= concurrency)%Z ->
  results_inv s ->
  success_inv urls parser s -> st a s = Some s' -> success_inv urls parser s'.
Proof.
  unfold success_inv. intros Hb (Hmu & _ & _) (Hcrash & Hok & Hrest) H.
  step_cases H; tasks_simpl.
  all: rewrite ?Hmain in *.
  all: try (split_and!; done).
  all: bool_facts; try lia.
  1: { apply Forall_cons in Hrest as [Hu Hrest]. split_and!; try done.
       apply Forall_app. split; [assumption|]. by repeat constructor. }
  all: rewrite Hts in *; apply Forall_app in Hok as [Hok1 Hok2];
       apply Forall_cons in Hok2 as [[Hsucc [Hnf Hpath]] Hok2];
       cbn [task_url pc failed] in *.
  all: try (split_and!; [done| |done];
            apply Forall_app; split; [assumption|];
            apply Forall_cons; split; [|assumption];
            split; [assumption|]; split; [done|]; cbn [pc task_url];
            first [done | eexists; by erewrite Hreq]).
  - destruct (Hsucc (world s)) as (r & d & Hr & _). rewrite Hreq in Hr.
    discriminate.
  - destruct (Hsucc (world s)) as (r & d & Hr & _). rewrite Hreq in Hr.
    discriminate.
  - destruct Hpath as [w Hw]. destruct (Hsucc w) as (r & d & Hr & Hd).
    rewrite Hw in Hr. injection Hr as <-. congruence.
  - exfalso. count_simpl. rewrite ?Hmu0 in Hmu. lia.
Qed.

Lemma measure_step (a : Actor) (s s' : State) :
  match a with Env _ => False | _ => True end ->
  st a s = Some s' -> crashed s' = None -> measure urls s' < measure urls s.
Proof.
  unfold measure. intros Ha H. step_cases H; tasks_simpl; try done.
  all: rewrite ?Hmain, ?Hts; rewrite ?sum_list_with_app;
       cbn [main_measure sum_list_with task_measure pc length]; intros; lia.
Qed.

Lemma count_pos (P : Task -> bool) (l : list Task) :
  0 < count P l -> exists i t, l !! i = Some t /\ P t = true.
Proof.
  induction l as [|t l IH]; [rewrite count_nil; lia|].
  rewrite count_cons. destruct (P t) eqn:Ht.
  - intros _. by exists 0, t.
  - intros H. destruct IH as (i & t' & Hi & Ht'); [lia|]. by exists (S i), t'.
Qed.

Lemma count_lt_length (P : Task -> bool) (l : list Task) :
  count P l < length l -> exists i t, l !! i = Some t /\ P t = false.
Proof.
  induction l as [|t l IH]; [cbn; lia|].
  rewrite count_cons. cbn [length]. destruct (P t) eqn:Ht.
  - intros H. destruct IH as (i & t' & Hi & Ht'); [lia|]. by exists (S i), t'.
  - intros _. by exists 0, t.
Qed.

Lemma count_none (P Q : Task -> bool) (l : list Task) :
  (forall t, Q t = true -> P t = true) -> count P l = 0 -> count Q l = 0.
Proof.
  intros HQP. induction l as [|t l IH]; [done|]. rewrite !count_cons.
  destruct (P t) eqn:HP; [discriminate|]. destruct (Q t) eqn:HQ.
  - apply HQP in HQ. congruence.
  - exact IH.
Qed.

(** No deadlock without a failure: as long as the caller has not returned
    the caller or some goroutine can take a step. *)
Lemma progress (w : World) (s : State) :
  (1 <= concurrency)%Z ->
  reach w s -> success_inv urls parser s -> returned s = false ->
  exists a s',
    match a with Env _ => False | _ => True end /\ st a s = Some s'.
Proof.
  intros Hb Hs (Hcrash & Hok & _) Hret.
  destruct (reachable_inv w s Hs)
    as ([Htk _] & (Hsig & Hwait & Hsp) & (Hmu & _) & _).
  unfold inflight in Htk.
  assert (forall i t, tasks s !! i = Some t ->
            (exists s', step_task urls parser concurrency i t s = Some s') ->
            exists a s', match a with Env _ => False | _ => True end /\
                         st a s = Some s') as Hgo.
  { intros i t Hi [s' Hs']. exists (Go i), s'. split; [done|].
    unfold step. by rewrite Hcrash, Hi. }
  assert ((exists s', step_main urls concurrency s = Some s') ->
          exists a s', match a with Env _ => False | _ => True end /\
                       st a s = Some s') as Hmain.
  { intros [s' Hs']. exists Main, s'. split; [done|].
    unfold step. by rewrite Hcrash. }
  unfold returned in Hret.
  destruct (main s) as [|rest|n|rs] eqn:Hm; [| | |discriminate].
  - apply Hmain. unfold step_main. rewrite Hm.
    destruct (concurrency <? 0)%Z; eauto.
  - apply Hmain. unfold step_main. rewrite Hm. destruct rest; eauto.
  - destruct n as [|n];
      [apply Hmain; unfold step_main; rewrite Hm; eauto|].
    destruct (worklist s) as [|x wl] eqn:Hwl;
      [|apply Hmain; unfold step_main; rewrite Hm, Hwl; eauto].
    specialize (Hwait _ eq_refl). cbn [received length] in Hsig.
    assert (length (tasks s) = length urls) as Hlen
      by (by rewrite <- Hsp, length_fmap).
    destruct (count busy (tasks s)) as [|k] eqn:Hbusy.
    2: { (* some goroutine stands at a statement that cannot block *)
      destruct (count_pos busy (tasks s)) as (i & t & Hi & Ht); [lia|].
      apply (Hgo i t Hi). unfold step_task, busy in *.
      destruct (pc t) eqn:Hpc; try discriminate; eauto.
      - destruct (makeRequest (task_url t) (world s)) as [[[?|?]|?] ?]; eauto.
      - destruct (Parser_GetMediaData parser resp); eauto.
      - destruct (mu s); eauto.
      - rewrite Hwl. cbn [length].
        assert (0 < length (tasks s)) by (apply lookup_lt_Some in Hi; lia).
        destruct (Nat.ltb_spec 0 (length urls)); [eauto|lia].
      - assert (1 <= tokens s).
        { rewrite Htk. eapply count_lookup; [exact Hi|].
          unfold holds_token. by rewrite Hpc. }
        destruct (tokens s); [lia|eauto]. }
    destruct (count at_lock (tasks s)) as [|k] eqn:Hlock.
    2: { (* nobody is inside the critical section: a lock goes through *)
      destruct (count_pos at_lock (tasks s)) as (i & t & Hi & Ht); [lia|].
      apply (Hgo i t Hi). unfold step_task, at_lock in *.
      destruct (pc t) eqn:Hpc; try discriminate.
      rewrite (count_none busy holds_mu) in Hmu; [|clear|exact Hbusy].
      - destruct (mu s); [discriminate|eauto].
      - intros t'. unfold busy, holds_mu. by destruct (pc t'). }
    (* nobody holds a token: an acquire goes through *)
    destruct (count_lt_length signalled (tasks s)) as (i & t & Hi & Ht);
      [lia|].
    apply (Hgo i t Hi).
    assert (tokens s = 0) as Htok0.
    { rewrite Htk. clear -Hbusy Hlock. induction (tasks s) as [|t l IH];
        [done|]. rewrite count_cons in *. unfold busy, at_lock, holds_token in *.
      destruct (pc t); try discriminate; apply IH; lia. }
    rewrite Forall_forall in Hok.
    destruct (Hok t) as [_ [Hnf _]]; [by eapply list_elem_of_lookup_2|].
    apply count_zero in Hbusy, Hlock. rewrite Forall_forall in Hbusy, Hlock.
    assert (t ∈ tasks s) as Hin by (by eapply list_elem_of_lookup_2).
    specialize (Hbusy t Hin). specialize (Hlock t Hin).
    unfold step_task, busy, at_lock, signalled, failed in *.
    destruct (pc t) as [| | | | | | | |[]|[]]; try discriminate.
    rewrite Htok0. destruct (Z.ltb_spec (Z.of_nat 0) concurrency); [eauto|lia].
Qed.

(** When every URL produces a record, every state of a run can be driven
    to one in which the caller has returned. *)
Lemma can_return (w : World) (n : nat) (s : State) :
  (1 <= concurrency)%Z ->
  measure urls s <= n -> reach w s -> success_inv urls parser s ->
  exists sched, returned (run urls parser concurrency sched s) = true.
Proof.
  intros Hb. revert s. induction n as [|n IH]; intros s Hn Hs Hinv.
  all: destruct (returned s) eqn:Hret; [by exists []|].
  all: destruct (progress w s Hb Hs Hinv Hret) as (a & s' & Ha & Hstep).
  all: assert (success_inv urls parser s') as Hinv'
         by (eapply success_inv_step; [lia| |exact Hinv|exact Hstep];
             apply (reachable_inv w s Hs)).
  all: pose proof (measure_step a s s' Ha Hstep (proj1 Hinv')) as Hlt.
  - lia.
  - destruct (IH s') as [sched Hsched];
      [lia | by eapply reachable_step | exact Hinv' |].
    exists (a :: sched). cbn [run]. by rewrite Hstep.
Qed.

(** When every URL produces a record there is a schedule under which
    [scrapeImages] returns, and whenever it returns it returns one record
    per URL. *)
Lemma all_succeed_returns (w : World) :
  (1 <= concurrency)%Z ->
  Forall (always_succeeds parser) urls ->
  (exists sched rs, scrapeImages urls parser concurrency sched w = Some rs) /\
  (forall sched rs,
      scrapeImages urls parser concurrency sched w = Some rs ->
      length rs = length urls).
Proof.
  intros Hb Hall. split.
  - destruct (can_return w (measure urls (init w)) (init w) Hb)
      as [sched Hsched]; [lia | apply reachable_init | by split_and! |].
    exists sched. unfold scrapeImages, returned in *.
    destruct (main (run urls parser concurrency sched (init w))); eauto;
      discriminate.
  - intros sched rs H. unfold scrapeImages in H.
    destruct (main (run urls parser concurrency sched (init w))) as [| | |rs']
      eqn:Hm; try discriminate. injection H as ->.
    eapply returned_records; [|exact Hm].
    apply reachable_run, reachable_init.
Qed.

(** *** Edge cases of the budget and of the input *)

Lemma task_url_in_urls (s : State) (t : Task) :
  signal_inv urls s -> t ∈ tasks s -> task_url t ∈ urls.
Proof.
  intros (_ & _ & Hsp) Hin.
  assert (task_url t ∈ task_url <$> tasks s) as Hu
    by (apply list_elem_of_fmap; eauto).
  destruct (main s); subst; try done.
  - rewrite Hsp in Hin. by apply not_elem_of_nil in Hin.
  - apply elem_of_app. by left.
Qed.

(** With a budget of zero or less no goroutine gets past line 141. *)
Lemma zero_budget_inv (w : World) (s : State) :
  (concurrency <= 0)%Z -> reach w s ->
  Forall (fun t => pc t = AtAcquire) (tasks s).
Proof.
  intros Hb. induction 1 as [|s a s' _ IH H]; [constructor|].
  step_cases H; tasks_simpl; try assumption.
  1: { apply Forall_app. split; [assumption|]. by repeat constructor. }
  all: rewrite Hts in IH; apply Forall_app in IH as [_ IH];
       apply Forall_cons in IH as [IH _]; cbn [pc] in IH;
       try discriminate IH.
  bool_facts. lia.
Qed.

(** With a negative budget the [make] of line 133 panics before anything
    else happens. *)
Lemma negative_budget_inv (w : World) (s : State) :
  (concurrency < 0)%Z -> reach w s ->
  main s = MMake /\ tasks s = [] /\ results s = [] /\
  (crashed s = None \/ crashed s = Some makechan_out_of_range).
Proof.
  intros Hb. induction 1 as [|s a s' _ (Hm & Ht & Hr & Hc) H].
  - cbn. auto.
  - step_cases H; tasks_simpl; try congruence.
    all: try (rewrite Ht in Hts; by destruct l1).
    all: bool_facts; try lia.
    all: auto.
Qed.

Lemma panic_inv_step (a : Actor) (s s' : State) :
  panic_inv s -> st a s = Some s' -> panic_inv s'.
Proof.
  unfold panic_inv. intros Hp H.
  assert (forall l (c : option string),
            Forall (fun t =>
               (pc t = Finished Panicking -> crashed s <> None) /\
               (pc t = AtRelease Panicking \/ pc t = Finished Panicking ->
                exists w msg, (makeRequest (task_url t) w).1 = Panic msg)) l ->
            (c = crashed s \/ c <> None) ->
            Forall (fun t =>
               (pc t = Finished Panicking -> c <> None) /\
               (pc t = AtRelease Panicking \/ pc t = Finished Panicking ->
                exists w msg, (makeRequest (task_url t) w).1 = Panic msg)) l)
    as Hkeep.
  { intros l c Hl Hc. eapply Forall_impl; [exact Hl|]. cbn.
    intros t [H1 H2]. split; [|exact H2]. intros Hpc.
    destruct Hc as [->|Hc]; auto. }
  step_cases H; tasks_simpl.
  all: try (apply Hkeep; [assumption|]; first [by left | by right]).
  1: { apply Forall_app. split; [apply Hkeep; auto|]. repeat constructor.
       - discriminate.
       - by intros [|]. }
  all: rewrite Hts in Hp; apply Forall_app in Hp as [Hp1 Hp2];
       apply Forall_cons in Hp2 as [[Hpt1 Hpt2] Hp2];
       cbn [pc task_url] in *;
       apply Forall_app; split;
         [apply Hkeep; [assumption|]; first [by left | by right] |];
       apply Forall_cons; split;
         [|apply Hkeep; [assumption|]; first [by left | by right]];
       cbn [pc task_url].
  all: try (split; [discriminate | intros [|]; discriminate]).
  - split; [discriminate|]. intros _. exists (world s), msg. by rewrite Hreq.
  - split; [done|]. intros _. apply Hpt2. by left.
Qed.

Lemma reachable_panic_inv (w : World) (s : State) : reach w s -> panic_inv s.
Proof.
  induction 1 as [|s a s' _ IH H]; [constructor|]. by eapply panic_inv_step.
Qed.

Lemma alive_inv_step (a : Actor) (s s' : State) :
  (0 <= concurrency)%Z ->
  (forall u w msg, u ∈ urls -> (makeRequest u w).1 <> Panic msg) ->
  signal_inv urls s -> results_inv s ->
  alive_inv s -> st a s = Some s' -> alive_inv s'.
Proof.
  unfold alive_inv. intros Hb Hsafe Hsig (Hmu & _) [Hcrash Hal] H.
  assert (forall t, t ∈ tasks s -> task_url t ∈ urls) as Hin
    by (intros; by eapply task_url_in_urls).
  step_cases H; tasks_simpl.
  all: try (split; assumption).
  all: bool_facts; try lia.
  1: { split; [assumption|]. apply Forall_app. split; [assumption|].
       by repeat constructor. }
  all: rewrite Hts in *; apply Forall_app in Hal as [Hal1 Hal2];
       apply Forall_cons in Hal2 as [[Hn1 Hn2] Hal2]; cbn [pc] in *.
  all: try (split; [assumption|];
            apply Forall_app; split; [assumption|];
            apply Forall_cons; split; [|assumption];
            cbn [pc]; split; discriminate).
  - exfalso. apply (Hsafe u (world s) msg).
    + apply (Hin (mkTask u AtRequest)), elem_of_app. right.
      apply list_elem_of_here.
    + by rewrite Hreq.
  - exfalso. count_simpl. rewrite ?Hmu0 in Hmu. lia.
  - done.
Qed.

(** C3: with a budget of at least one, in every state of every run the
    goroutines in flight (past the send of line 141, the deferred receive
    of line 142 not yet done) are as many as the elements buffered in
    [tokens] and at most the budget; the send of line 141 goes through
    only below the budget and adds one; the deferred receive of a
    goroutine that completed, returned early or panicked always goes
    through and takes one away. *)
Theorem inflight_bounded (w : World) (s : State) :
  (1 <= concurrency)%Z ->
  reach w s ->
  inflight s = tokens s /\
  (Z.of_nat (inflight s) <= concurrency)%Z /\
  (forall i t s',
      tasks s !! i = Some t -> pc t = AtAcquire -> st (Go i) s = Some s' ->
      (Z.of_nat (inflight s) < concurrency)%Z /\ inflight s' = S (inflight s))
  /\
  (forall i t e,
      tasks s !! i = Some t -> pc t = AtRelease e -> crashed s = None ->
      exists s', st (Go i) s = Some s' /\ S (inflight s') = inflight s).
Proof.
  intros Hb Hs.
  destruct (reachable_inv w s Hs) as ([Htk Hcap] & _).
  split_and!.
  - by rewrite Htk.
  - rewrite <- Htk. lia.
  - intros i t s' Hi Hpc Hstep.
    assert (gate_inv concurrency s') as [Htk' _].
    { eapply gate_inv_step; [|exact Hstep]. by split. }
    rewrite <- Htk, <- Htk'. revert Hstep. unfold step.
    destruct (crashed s); [discriminate|]. rewrite Hi. unfold step_task.
    rewrite Hpc. destruct (Z.ltb_spec (Z.of_nat (tokens s)) concurrency);
      [|discriminate].
    intros [= <-]. split; [assumption|reflexivity].
  - intros i t e Hi Hpc Hcr.
    assert (1 <= tokens s) as Hge.
    { rewrite Htk. eapply count_lookup; [exact Hi|].
      unfold holds_token. by rewrite Hpc. }
    assert (exists s', st (Go i) s = Some s' /\ S (tokens s') = tokens s)
      as (s' & Hstep & Hs').
    { unfold step. rewrite Hcr, Hi. unfold step_task. rewrite Hpc.
      destruct (tokens s) as [|k]; [lia|].
      eexists. split; [reflexivity|]. by destruct e. }
    exists s'. split; [exact Hstep|].
    assert (gate_inv concurrency s') as [Htk' _].
    { eapply gate_inv_step; [|exact Hstep]. by split. }
    by rewrite <- Htk, <- Htk'.
Qed.

(** Whatever [scrapeImages] returns has one record per URL. *)
Lemma all_succeed_returns_length (sched : list Actor) (w : World)
    (rs : list MediaData) :
  scrapeImages urls parser concurrency sched w = Some rs ->
  length rs = length urls.
Proof.
  unfold scrapeImages. intros H.
  destruct (main (run urls parser concurrency sched (init w))) as [| | |rs']
    eqn:Hm; try discriminate. injection H as ->.
  eapply returned_records; [|exact Hm]. apply reachable_run, reachable_init.
Qed.

(** *** Further properties of a run *)

Lemma reachable_success_inv (w : World) (s : State) :
  (0 <= concurrency)%Z -> Forall (always_succeeds parser) urls ->
  reach w s -> success_inv urls parser s.
Proof.
  intros Hb Hall. induction 1 as [|s a s' Hs IH H].
  - by split_and!.
  - eapply success_inv_step; [exact Hb| |exact IH|exact H].
    apply (reachable_inv w s Hs).
Qed.

Lemma reachable_alive_inv (w : World) (s : State) :
  (0 <= concurrency)%Z ->
  (forall u w msg, u ∈ urls -> (makeRequest u w).1 <> Panic msg) ->
  reach w s -> alive_inv s.
Proof.
  intros Hb Hsafe. induction 1 as [|s a s' Hs IH H].
  - split; [reflexivity|constructor].
  - eapply alive_inv_step; [exact Hb|exact Hsafe| | |exact IH|exact H];
      apply (reachable_inv w s Hs).
Qed.

Lemma failed_step (a : Actor) (s s' : State) :
  Exists (fun t => failed t = true) (tasks s) -> st a s = Some s' ->
  Exists (fun t => failed t = true) (tasks s').
Proof.
  intros Hf H. step_cases H; tasks_simpl; try assumption.
  1: { apply Exists_app. by left. }
  all: rewrite Hts in Hf; apply Exists_app in Hf as [Hf|Hf];
       [apply Exists_app; by left|];
       apply Exists_cons in Hf as [Hf|Hf];
       [|apply Exists_app; right; apply Exists_cons; by right];
       apply Exists_app; right; apply Exists_cons; left;
       cbn in Hf; try discriminate Hf; reflexivity.
Qed.

Lemma failed_run (sched : list Actor) (s : State) :
  Exists (fun t => failed t = true) (tasks s) ->
  Exists (fun t => failed t = true)
         (tasks (run urls parser concurrency sched s)).
Proof.
  revert s. induction sched as [|a sched IH]; intros s Hf; [exact Hf|].
  cbn [run]. apply IH. destruct (st a s) as [s'|] eqn:H; cbn; [|exact Hf].
  by eapply failed_step.
Qed.

(** X3: in every state of every run at most one goroutine is between the
    [mu.Lock()] of line 157 and the [mu.Unlock()] of line 160, and only
    while [mu] is held; the shared slice holds exactly the records of the
    goroutines that have done the store of line 159, each once, and every
    one of them is the parser's result on a response that [makeRequest]
    returned for one of the input URLs. *)
Theorem results_consistent (w : World) (s : State) :
  reach w s ->
  count holds_mu (tasks s) = (if mu s then 1 else 0) /\
  results s ≡ₚ omap stored (tasks s) /\
  Forall (fun d => exists u, u ∈ urls /\ produced parser u d) (results s).
Proof.
  intros Hs.
  destruct (reachable_inv w s Hs) as (_ & Hsig & (Hmu & _ & Hres) & _ & Hp & _).
  split; [exact Hmu|]. split; [exact Hres|].
  rewrite Hres. apply Forall_forall. intros d Hd.
  apply list_elem_of_omap in Hd as (t & Hin & Hst).
  exists (task_url t). split; [by eapply task_url_in_urls|].
  unfold provenance_inv in Hp. rewrite Forall_forall in Hp.
  specialize (Hp t Hin). unfold provenance, stored in *.
  destruct (pc t) as [| | | | | | | |[]|[]]; try discriminate;
    by injection Hst as <-.
Qed.

(** X4: the send of line 163 never blocks: whenever a goroutine stands at
    it in a live process the buffer of [worklist] has room, and the
    goroutine can take the step. *)
Theorem signal_never_blocks (w : World) (s : State) (i : nat) (t : Task)
    (d : MediaData) :
  reach w s -> crashed s = None ->
  tasks s !! i = Some t -> pc t = AtSignal d ->
  length (worklist s) < length urls /\
  exists s', st (Go i) s = Some s' /\
             worklist s' = worklist s ++ [task_url t].
Proof.
  intros Hs Hcr Hi Hpc.
  destruct (reachable_inv w s Hs) as (_ & (Hsig & _ & Hsp) & _).
  assert (length (worklist s) < length urls) as Hroom.
  { assert (length (tasks s) <= length urls) as Hlen.
    { destruct (main s); subst; rewrite ?length_app, ?length_fmap;
        try lia. rewrite Hsp. cbn. lia. }
    apply list_elem_of_split_length in Hi as (l1 & l2 & Hts & _).
    rewrite Hts in Hsig, Hlen. rewrite count_app, count_cons in Hsig.
    unfold signalled at 2 in Hsig. rewrite Hpc in Hsig.
    rewrite length_app in Hlen. cbn [length] in Hlen.
    pose proof (count_le_length signalled l1).
    pose proof (count_le_length signalled l2). lia. }
  split; [exact Hroom|].
  unfold step. rewrite Hcr, Hi. unfold step_task. rewrite Hpc.
  destruct (Nat.ltb_spec (length (worklist s)) (length urls)); [|lia].
  eexists. split; [reflexivity|]. reflexivity.
Qed.

(** X5: whenever [scrapeImages] returns, it returns one record per input
    URL, each the parser's result on a response that [makeRequest]
    returned for one of the input URLs, and no goroutine has taken a
    failure path. *)
Theorem scrapeImages_result (sched : list Actor) (w : World)
    (rs : list MediaData) :
  scrapeImages urls parser concurrency sched w = Some rs ->
  length rs = length urls /\
  Forall (fun d => exists u, u ∈ urls /\ produced parser u d) rs /\
  rs = results (run urls parser concurrency sched (init w)) /\
  Forall (fun t => failed t = false /\ signalled t = true)
         (tasks (run urls parser concurrency sched (init w))).
Proof.
  unfold scrapeImages. intros H.
  destruct (main (run urls parser concurrency sched (init w))) as [| | |rs']
    eqn:Hm; try discriminate. injection H as ->.
  assert (reach w (run urls parser concurrency sched (init w))) as Hs
    by apply reachable_run, reachable_init.
  destruct (returned_records w _ rs Hs Hm) as (Hrs & Hlen & _ & Hnf & Hprod).
  destruct (returned_all_signalled w _ rs Hs Hm) as [_ Hall].
  split_and!; try assumption.
  rewrite Forall_forall in *. intros t Hin. split; [by apply Hnf|by apply Hall].
Qed.

(** X6: when every input URL always produces a record and the budget is
    at least one, every state of every run can be continued to one in
    which the caller has returned: nothing deadlocks, and some schedule
    makes [scrapeImages] return. *)
Theorem scrapeImages_can_return (w : World) (s : State) :
  (1 <= concurrency)%Z -> Forall (always_succeeds parser) urls ->
  reach w s ->
  (exists sched, returned (run urls parser concurrency sched s) = true) /\
  (exists sched rs, scrapeImages urls parser concurrency sched w = Some rs).
Proof.
  intros Hb Hall Hs. split.
  - eapply (can_return w (measure urls s) s Hb); [lia|exact Hs|].
    apply (reachable_success_inv w s); [lia|exact Hall|exact Hs].
  - apply (all_succeed_returns w Hb Hall).
Qed.

(** X7: once a goroutine has taken a failure path (an early [return] of
    lines 148 and 154, or a panic) the caller has not returned and does
    not return, whatever happens next. *)
Theorem failure_blocks_caller (w : World) (s : State) (sched : list Actor) :
  reach w s -> Exists (fun t => failed t = true) (tasks s) ->
  returned s = false /\
  returned (run urls parser concurrency sched s) = false.
Proof.
  intros Hs Hf. split; [by apply (failed_never_returns w)|].
  apply (failed_never_returns w); [by apply reachable_run|].
  by apply failed_run.
Qed.

(** X8: with a budget of zero and at least one URL, [scrapeImages]
    returns under no schedule, and no goroutine ever gets past the send
    of line 141. *)
Theorem zero_budget_blocks (sched : list Actor) (w : World) :
  concurrency = 0%Z -> urls <> [] ->
  scrapeImages urls parser concurrency sched w = None /\
  Forall (fun t => pc t = AtAcquire)
         (tasks (run urls parser concurrency sched (init w))).
Proof.
  intros Hb Hne. split.
  - apply scrapeImages_None. intros s Hs. unfold returned.
    destruct (main s) as [| | |rs] eqn:Hm; try reflexivity. exfalso.
    destruct (returned_all_signalled w s rs Hs Hm) as [Hsp Hall].
    pose proof (zero_budget_inv w s ltac:(lia) Hs) as Hacq.
    destruct (tasks s) as [|t l]; [by rewrite <- Hsp in Hne|].
    apply Forall_cons in Hall as [Ht _], Hacq as [Hpc _].
    unfold signalled in Ht. by rewrite Hpc in Ht.
  - apply (zero_budget_inv w); [lia|]. apply reachable_run, reachable_init.
Qed.

(** X9: with a negative budget the [make] of line 133 panics: the first
    step of the caller crashes the process, no goroutine is started and
    [scrapeImages] returns under no schedule. *)
Theorem negative_budget_panics (sched : list Actor) (w : World) :
  (concurrency < 0)%Z ->
  st Main (init w) = Some (set_crashed makechan_out_of_range (init w)) /\
  scrapeImages urls parser concurrency sched w = None /\
  tasks (run urls parser concurrency sched (init w)) = [].
Proof.
  intros Hb. split_and!.
  - unfold step, step_main. cbn.
    by destruct (Z.ltb_spec concurrency 0); [|lia].
  - apply scrapeImages_None. intros s Hs.
    destruct (negative_budget_inv w s Hb Hs) as (Hm & _).
    unfold returned. by rewrite Hm.
  - apply (negative_budget_inv w _ Hb). apply reachable_run, reachable_init.
Qed.

(** X10: a goroutine panics only when [makeRequest] panics on its URL,
    and once its deferred receive of line 142 has run the process has
    crashed: nobody takes another step. *)
Theorem panic_crashes_process (w : World) (s : State) (i : nat) (t : Task) :
  reach w s -> tasks s !! i = Some t -> pc t = Finished Panicking ->
  (exists w' msg, (makeRequest (task_url t) w').1 = Panic msg) /\
  crashed s <> None /\
  forall a, st a s = None.
Proof.
  intros Hs Hi Hpc.
  pose proof (reachable_panic_inv w s Hs) as Hp. unfold panic_inv in Hp.
  rewrite Forall_forall in Hp.
  destruct (Hp t) as [Hc Ho]; [by eapply list_elem_of_lookup_2|].
  split; [apply Ho; by right|]. split; [by apply Hc|].
  intros a. unfold step. specialize (Hc Hpc). by destruct (crashed s).
Qed.

(** X11: with a budget that is not negative, a random source whose draws
    are not negative and input URLs that all parse, no run crashes the
    process: [makeRequest] does not panic, and [mu] is never unlocked
    while it is free. *)
Theorem well_formed_urls_never_crash (w : World) (s : State) :
  (0 <= concurrency)%Z ->
  (forall g, 0 <= (rand_Int g).1)%Z ->
  (forall u, u ∈ urls -> exists p, url_Parse u = Ok p) ->
  reach w s ->
  crashed s = None /\
  Forall (fun t => pc t <> AtRelease Panicking /\ pc t <> Finished Panicking)
         (tasks s).
Proof.
  intros Hb Hpos Hok Hs. apply (reachable_alive_inv w s Hb); [|exact Hs].
  intros u w' msg Hu Hpanic. destruct (Hok u Hu) as [p Hp].
  destruct (makeRequest_well_formed u p w' Hpos Hp) as (ua & _ & Hret).
  congruence.
Qed.

End ScrapeFacts.

(** ** Runs on concrete inputs *)

Section Runs.
Import Demo.

Lemma demo_draws_nonnegative (g : Rng) : (0 <= (rand_Int g).1)%Z.
Proof. cbn. apply Z.mod_pos_bound. lia. Qed.

(** In the instance a URL without a leading colon is fetched: the
    outcome is what [serve] answers to it. *)
Lemma demo_makeRequest (u : string) (w : World) :
  starts_with_colon u = false ->
  exists ua w1,
    makeRequest u w =
    (Ret (match serve u with
          | Err e => Err e
          | Ok (code, b) =>
              Ok (http.mkResponse code
                    (follow (http.mkRequest "GET" u [("User-Agent", ua)])) b)
          end), w1).
Proof.
  intros Hu. unfold makeRequest, http_NewRequest. cbn [url_Parse libs].
  rewrite Hu.
  destruct (randomUserAgent_in_pool w demo_draws_nonnegative)
    as (ua & Hua & _).
  destruct (randomUserAgent w) as [o w1]. cbn [fst] in Hua. subst o.
  exists ua.
  cbn [client_Do libs http.Method http.URL http.Header http.Header_Set].
  eexists. cbn. destruct (serve u) as [[code b]|e]; reflexivity.
Qed.

Lemma down_never_succeeds : never_succeeds DefaultParser "https://down/".
Proof.
  intros w resp H.
  destruct (demo_makeRequest "https://down/" w eq_refl) as (ua & w1 & Hm).
  rewrite Hm in H. cbn in H. discriminate.
Qed.

Lemma junk_never_succeeds : never_succeeds DefaultParser "https://junk/".
Proof.
  intros w resp H.
  destruct (demo_makeRequest "https://junk/" w eq_refl) as (ua & w1 & Hm).
  rewrite Hm in H. cbn in H. injection H as <-. cbn. eauto.
Qed.

(** A run in which everything succeeds: the caller returns one record per
    URL, the page that answers 404 included. *)
Example scrapeImages_all_succeed :
  scrapeImages ["https://x/a"; "https://x/missing"] DefaultParser 1
    ([Main; Main; Main; Main] ++ repeat (Go 1) 9 ++ repeat (Go 0) 9
     ++ [Main; Main; Main])
    world0 =
  Some [ mkMediaData "https://x/missing" [] 404 "";
         mkMediaData "https://x/a" ["a.png"; "b.jpg"] 200 "hello" ].
Proof. reflexivity. Qed.

(** C1 on the input [["https://down/"]], whose fetch fails: the goroutine
    returns at line 148 without the send of line 163, so under no
    schedule does [scrapeImages] return, and there is a run that ends with
    the goroutine finished, [worklist] empty and the caller blocked in the
    receive of line 169. *)
Theorem scrapeImages_hangs_on_failed_fetch :
  let urls := ["https://down/"] in
  (forall sched w, scrapeImages urls DefaultParser 1 sched w = None) /\
  exists s,
    reachable urls DefaultParser 1 world0 s /\
    stuck urls DefaultParser 1 s /\
    pc <$> tasks s = [Finished Failed] /\
    worklist s = [] /\ main s = MWait 1.
Proof.
  intros urls. split.
  - intros sched w. apply scrapeImages_None. intros s Hs.
    eapply (doomed_never_returns urls DefaultParser 1 w s "https://down/");
      [apply list_elem_of_here | apply down_never_succeeds | exact Hs].
  - exists (run urls DefaultParser 1 ([Main; Main; Main] ++ repeat (Go 0) 3)
                (init world0)).
    split; [apply reachable_run, reachable_init|].
    split; [|split_and!; reflexivity].
    split_and!; [reflexivity | reflexivity |].
    intros [|i]; reflexivity.
Qed.

(** C2 on the input [["https://x/a"; "https://junk/"]] (N = 2, K = 1, the
    second body does not parse): under no schedule does [scrapeImages]
    return, and there is a run that ends with the one record stored in
    the shared slice, both goroutines finished and the caller blocked in
    the receive of line 169. *)
Theorem scrapeImages_keeps_partial_results :
  let urls := ["https://x/a"; "https://junk/"] in
  (forall sched w, scrapeImages urls DefaultParser 2 sched w = None) /\
  exists s,
    reachable urls DefaultParser 2 world0 s /\
    stuck urls DefaultParser 2 s /\
    results s = [mkMediaData "https://x/a" ["a.png"; "b.jpg"] 200 "hello"] /\
    failed <$> tasks s = [false; true] /\
    main s = MWait 1.
Proof.
  intros urls. split.
  - intros sched w. apply scrapeImages_None. intros s Hs.
    eapply (doomed_never_returns urls DefaultParser 2 w s "https://junk/");
      [ apply list_elem_of_further, list_elem_of_here
      | apply junk_never_succeeds | exact Hs].
  - exists (run urls DefaultParser 2
                ([Main; Main; Main; Main] ++ repeat (Go 0) 9
                 ++ repeat (Go 1) 4 ++ [Main; Main])
                (init world0)).
    split; [apply reachable_run, reachable_init|].
    split; [|split_and!; reflexivity].
    split_and!; [reflexivity | reflexivity |].
    intros [|[|i]]; reflexivity.
Qed.

(** Three URLs under a budget of two: the third goroutine is held at the
    gate. *)
Lemma inflight_bounded_witness :
  let urls := ["https://x/a"; "https://x/b"; "https://x/c"] in
  let s := run urls DefaultParser 2
             [Main; Main; Main; Main; Main; Go 0; Go 1; Go 2; Go 0]
             (init world0) in
  (1 <= 2)%Z /\
  reachable urls DefaultParser 2 world0 s /\
  inflight s = 2 /\ inflight s = tokens s /\ (Z.of_nat (inflight s) <= 2)%Z.
Proof.
  intros urls s.
  assert (reachable urls DefaultParser 2 world0 s) as Hs
    by apply reachable_run, reachable_init.
  assert (1 <= 2)%Z as Hb by lia.
  destruct (inflight_bounded urls DefaultParser 2 world0 s Hb Hs)
    as (Heq & Hle & _).
  split; [exact Hb|]. split; [exact Hs|]. split; [|split; [exact Heq|exact Hle]].
  reflexivity.
Defined.

(** C4 on the input ["://bad"], which net/url rejects: [makeRequest]
    panics in line 66 instead of returning the error of line 63. *)
Theorem makeRequest_malformed_url_panics (w : World) :
  http_NewRequest "GET" "://bad" = (None, Some "missing protocol scheme") /\
  (makeRequest "://bad" w).1 = Panic nil_dereference.
Proof.
  split; [reflexivity|].
  by rewrite (makeRequest_malformed "://bad" "missing protocol scheme" w).
Qed.

(** A panic of [makeRequest] unwinds [parseSitemap]: on ["://bad"], a URL
    that [main] never passes, no error is returned. *)
Theorem parseSitemap_malformed_url_panics (w : World) :
  url_Parse "://bad" = Err "missing protocol scheme" /\
  (parseSitemap "://bad" w).1 = Panic nil_dereference /\
  forall e, (parseSitemap "://bad" w).1 <> Ret (Err e).
Proof.
  assert ((parseSitemap "://bad" w).1 = Panic nil_dereference) as H.
  { unfold parseSitemap.
    by rewrite (makeRequest_malformed "://bad" "missing protocol scheme" w). }
  split; [reflexivity|]. split; [exact H|]. intros e. by rewrite H.
Qed.

(** A status outside 2xx is a normal response, not an error. *)
Example makeRequest_404_is_a_response :
  exists resp, (makeRequest "https://x/missing" world0).1 = Ret (Ok resp) /\
               http.StatusCode resp = 404%Z.
Proof. eexists. split; reflexivity. Qed.

(** A transport error is returned as the error. *)
Example makeRequest_connection_refused :
  (makeRequest "https://down/" world0).1 = Ret (Err "connection refused").
Proof. reflexivity. Qed.

(** A sitemap with the two entries [https://x/1] and [https://x/2]. *)
Example parseSitemap_two_entries :
  (parseSitemap "https://x/sitemap.xml" world0).1 =
  Ret (Ok ["https://x/1"; "https://x/2"]).
Proof.
  destruct (parseSitemap_locations "https://x/sitemap.xml" world0) as [H _].
  eapply (H _ sitemap2); reflexivity.
Qed.

Example parseSitemap_fetch_error :
  (parseSitemap "https://down/" world0).1 = Ret (Err "connection refused").
Proof. reflexivity. Qed.

Example parseSitemap_decode_error :
  (parseSitemap "https://x/a" world0).1 =
  Ret (Err "expected element type <urlset>").
Proof. reflexivity. Qed.

(** The page of the specification's example: three image elements, the
    second without [src]. *)
Lemma GetMediaData_image_refs_witness :
  html_Parse (http.Body_ response3) = Ok page3 /\
  Spec.parse_tree page3 = true /\
  Spec.image_refs page3 = ["a.png"; "b.jpg"] /\
  exists md, GetMediaData response3 = Ok md /\
             ImageURLs md = Spec.image_refs page3.
Proof.
  split; [reflexivity|]. split; [reflexivity|]. split; [reflexivity|].
  apply (GetMediaData_image_refs response3 page3); reflexivity.
Defined.

(** A page with [<meta name="description" content="hello">] and a page
    without a description. *)
Lemma GetMediaData_meta_snippet_witness :
  (html_Parse (http.Body_ response3) = Ok page3 /\
   Spec.parse_tree page3 = true /\
   Spec.meta_snippet page3 = "hello" /\
   exists md, GetMediaData response3 = Ok md /\
              meta md = Spec.meta_snippet page3) /\
  (html_Parse (http.Body_ response0) = Ok page0 /\
   Spec.parse_tree page0 = true /\
   Spec.meta_snippet page0 = "" /\
   exists md, GetMediaData response0 = Ok md /\
              meta md = Spec.meta_snippet page0).
Proof.
  split.
  - split; [reflexivity|]. split; [reflexivity|]. split; [reflexivity|].
    apply (GetMediaData_meta_snippet response3 page3); reflexivity.
  - split; [reflexivity|]. split; [reflexivity|]. split; [reflexivity|].
    apply (GetMediaData_meta_snippet response0 page0); reflexivity.
Defined.

(** A redirected request: the record carries the URL of the request that
    was answered, not the URL asked for. *)
Lemma GetMediaData_error_and_metadata_witness :
  (makeRequest "https://x/old" world0).1 = Ret (Ok redirected) /\
  exists md,
    GetMediaData redirected = Ok md /\
    StatusCode md = http.StatusCode redirected /\
    URL md = http.URL (http.Request_ redirected) /\
    URL md = "https://x/new".
Proof.
  split; [reflexivity|].
  exists (mkMediaData "https://x/new" ["a.png"; "b.jpg"] 200 "hello").
  destruct (GetMediaData_error_and_metadata redirected) as [_ H].
  split; [reflexivity|].
  split; [eapply H; reflexivity|]. split; [eapply H; reflexivity|reflexivity].
Defined.

(** Two responses for the same document that differ in the method and the
    header of their request. *)
Lemma GetMediaData_deterministic_witness :
  let resp1 : http.Response Body := http.mkResponse 200
                 (http.mkRequest "GET" "https://x/3" [("User-Agent", "a")])
                 (Page page3) in
  let resp2 : http.Response Body := http.mkResponse 200
                 (http.mkRequest "HEAD" "https://x/3" [("User-Agent", "b")])
                 (Page page3) in
  html_Parse (http.Body_ resp1) = html_Parse (http.Body_ resp2) /\
  http.StatusCode resp1 = http.StatusCode resp2 /\
  http.URL (http.Request_ resp1) = http.URL (http.Request_ resp2) /\
  resp1 <> resp2 /\
  GetMediaData resp1 = GetMediaData resp2.
Proof.
  intros resp1 resp2.
  split; [reflexivity|]. split; [reflexivity|]. split; [reflexivity|].
  split; [discriminate|].
  apply (GetMediaData_deterministic resp1 resp2); reflexivity.
Defined.

(** Two readings of the clock in the second 1700000000, with different
    states of the source before the call. *)
Lemma randomUserAgent_same_second_witness :
  let w1 := mkWorld 1700000000123456789 0%Z 0 in
  let w2 := mkWorld 1700000000999999999 12345%Z 7 in
  let sec := 1700000000%Z in
  (forall g, 0 <= (rand_Int g).1)%Z /\
  (sec * 1000000000 <= now w1 < (sec + 1) * 1000000000)%Z /\
  (sec * 1000000000 <= now w2 < (sec + 1) * 1000000000)%Z /\
  exists ua, ua ∈ userAgents /\ length userAgents = 3 /\
    (randomUserAgent w1).1 = Ret ua /\
    (randomUserAgent w2).1 = Ret ua /\
    rng (randomUserAgent w1).2 = (rand_Int (rand_Seed sec)).2 /\
    rng (randomUserAgent w2).2 = (rand_Int (rand_Seed sec)).2.
Proof.
  intros w1 w2 sec.
  assert (sec * 1000000000 <= now w1 < (sec + 1) * 1000000000)%Z as H1
    by (cbn; lia).
  assert (sec * 1000000000 <= now w2 < (sec + 1) * 1000000000)%Z as H2
    by (cbn; lia).
  split; [exact demo_draws_nonnegative|]. split; [exact H1|].
  split; [exact H2|].
  exact (randomUserAgent_same_second w1 w2 sec demo_draws_nonnegative H1 H2).
Defined.

End Runs.

(** ** The report written by [main] *)

Section ReportFacts.

Lemma append_nil_l (s : string) : "" +:+ s = s.
Proof. reflexivity. Qed.

Lemma append_cons (c : Ascii.ascii) (a b : string) :
  String c a +:+ b = String c (a +:+ b).
Proof. reflexivity. Qed.

Lemma append_assoc (a b c : string) : (a +:+ b) +:+ c = a +:+ (b +:+ c).
Proof.
  induction a as [|x a IH]; [reflexivity|].
  rewrite !append_cons. by rewrite IH.
Qed.

(** Two texts that agree and start with a single line followed by a line
    feed agree on the line and on what follows it. *)
Lemma single_line_split (a b x y : string) :
  single_line a = true -> single_line b = true ->
  a +:+ fmt.LF +:+ x = b +:+ fmt.LF +:+ y -> a = b /\ x = y.
Proof.
  revert b. induction a as [|c a IH]; intros [|d b] Ha Hb H.
  - split; [reflexivity|]. by injection H.
  - exfalso. rewrite append_nil_l, !append_cons in H. injection H as <- _.
    cbn in Hb. done.
  - exfalso. rewrite append_nil_l, !append_cons in H. injection H as -> _.
    cbn in Ha. done.
  - rewrite !append_cons in H. injection H as -> H.
    cbn in Ha, Hb. apply andb_prop in Ha as [_ Ha], Hb as [_ Hb].
    destruct (IH b Ha Hb H) as [-> ->]. done.
Qed.

Lemma single_line_uint (d : Decimal.uint) :
  single_line (NilEmpty.string_of_uint d) = true.
Proof. induction d; cbn; auto. Qed.

Lemma single_line_Sprintf_d (n : Z) : single_line (fmt.Sprintf_d n) = true.
Proof.
  unfold fmt.Sprintf_d, NilZero.string_of_int, NilZero.string_of_uint.
  destruct (Z.to_int n) as [d|d]; destruct d; cbn; auto using single_line_uint.
Qed.

(** [%d] prints different numbers differently. *)
Lemma Sprintf_d_inj (a b : Z) : fmt.Sprintf_d a = fmt.Sprintf_d b -> a = b.
Proof.
  unfold fmt.Sprintf_d. intros H.
  assert (forall n, NilZero.int_of_string (NilZero.string_of_int (Z.to_int n))
                    = Some (Z.to_int n)) as Hisi.
  { intros n. apply NilZero.isi; destruct n; cbn; try discriminate.
    - intros [= Hp]. by apply Unsigned.to_uint_nonnil in Hp.
    - intros [= Hp]. by apply Unsigned.to_uint_nonnil in Hp. }
  apply (f_equal NilZero.int_of_string) in H. rewrite !Hisi in H.
  injection H as H. apply (f_equal Z.of_int) in H.
  by rewrite !DecimalZ.of_to in H.
Qed.

Lemma fold_left_image_line (imgs : list string) (output rest : string) :
  fold_left (fun output imgURL => output +:+ image_line imgURL) imgs output
    +:+ rest =
  output +:+ image_lines imgs rest.
Proof.
  revert output. induction imgs as [|i imgs IH]; intros output; [done|].
  cbn [fold_left image_lines fold_right]. rewrite IH. unfold image_line.
  by rewrite !append_assoc.
Qed.

(** The text of a record, followed by [rest], field by field. *)
Lemma record_output_fields (res : MediaData) (rest : string) :
  record_output res +:+ rest =
  "URL: " +:+ URL res +:+ fmt.LF +:+
  "StatusCode: " +:+ fmt.Sprintf_d (StatusCode res) +:+ fmt.LF +:+
  "Meta Description: " +:+ meta res +:+ fmt.LF +:+
  "Images:" +:+ fmt.LF +:+
  image_lines (ImageURLs res) (fmt.LF +:+ rest).
Proof.
  unfold record_output. rewrite append_assoc, fold_left_image_line.
  by rewrite !append_assoc.
Qed.

Lemma image_lines_inj (i1 i2 : list string) (x y : string) :
  forallb single_line i1 = true -> forallb single_line i2 = true ->
  image_lines i1 (fmt.LF +:+ x) = image_lines i2 (fmt.LF +:+ y) ->
  i1 = i2 /\ x = y.
Proof.
  revert i2. induction i1 as [|a i1 IH]; intros [|b i2] H1 H2 H.
  - split; [reflexivity|]. by injection H.
  - discriminate H.
  - discriminate H.
  - cbn [image_lines fold_right] in H.
    apply (inj (String.append "- ")) in H.
    cbn in H1, H2. apply andb_prop in H1 as [Ha H1], H2 as [Hb H2].
    apply single_line_split in H as [-> H]; [|assumption..].
    destruct (IH i2 H1 H2 H) as [-> ->]. done.
Qed.

(** Equal texts that start with the texts of two records with single-line
    fields: the fields agree, and so does what follows. *)
Lemma record_output_split (r1 r2 : MediaData) (x y : string) :
  plain_record r1 = true -> plain_record r2 = true ->
  record_output r1 +:+ x = record_output r2 +:+ y ->
  URL r1 = URL r2 /\ StatusCode r1 = StatusCode r2 /\ meta r1 = meta r2 /\
  ImageURLs r1 = ImageURLs r2 /\ x = y.
Proof.
  unfold plain_record. intros H1 H2 H.
  apply andb_prop in H1 as [H1 Hi1], H2 as [H2 Hi2].
  apply andb_prop in H1 as [Hu1 Hm1], H2 as [Hu2 Hm2].
  rewrite !record_output_fields in H.
  apply (inj (String.append "URL: ")) in H.
  apply single_line_split in H as [Hu H]; [|assumption..].
  apply (inj (String.append "StatusCode: ")) in H.
  apply single_line_split in H as [Hc H];
    [|apply single_line_Sprintf_d..].
  apply Sprintf_d_inj in Hc.
  apply (inj (String.append "Meta Description: ")) in H.
  apply single_line_split in H as [Hm H]; [|assumption..].
  apply (inj (String.append "Images:")) in H.
  apply (inj (String.append fmt.LF)) in H.
  apply image_lines_inj in H as [Hi ->]; [|assumption..].
  done.
Qed.

(** X1: the text of a record whose fields are single lines determines the
    record, also when more text follows: from two equal texts that each
    start with the text of such a record, the records are equal and so is
    what follows. *)
Theorem record_output_prefix_free (r1 r2 : MediaData) (x y : string) :
  plain_record r1 = true -> plain_record r2 = true ->
  record_output r1 +:+ x = record_output r2 +:+ y ->
  r1 = r2 /\ x = y.
Proof.
  intros H1 H2 H.
  destruct (record_output_split r1 r2 x y H1 H2 H) as (Hu & Hc & Hm & Hi & Hx).
  split; [|exact Hx].
  destruct r1, r2; cbn in *; congruence.
Qed.

Lemma record_output_nonempty (res : MediaData) (rest : string) :
  record_output res +:+ rest <> "".
Proof. rewrite record_output_fields. discriminate. Qed.

(** X2: the report determines the list of records when their fields are
    single lines: two lists of such records with the same report are the
    same list. *)
Theorem report_inj (l1 l2 : list MediaData) :
  forallb plain_record l1 = true -> forallb plain_record l2 = true ->
  report l1 = report l2 -> l1 = l2.
Proof.
  revert l2. induction l1 as [|r1 l1 IH]; intros [|r2 l2] H1 H2 H.
  - reflexivity.
  - cbn [report fold_right] in H. symmetry in H.
    by apply record_output_nonempty in H.
  - cbn [report fold_right] in H. by apply record_output_nonempty in H.
  - cbn in H1, H2. apply andb_prop in H1 as [Hr1 H1], H2 as [Hr2 H2].
    cbn [report fold_right] in H.
    apply record_output_split in H as (Hu & Hc & Hm & Hi & H);
      [|assumption..].
    f_equal; [destruct r1, r2; cbn in *; congruence | by apply IH].
Qed.

(** With a line feed in a field two different records can have the same
    text. *)
Example record_output_ambiguous :
  let r1 := mkMediaData "u" [] 200 ("m" +:+ fmt.LF +:+ "Images:" +:+ fmt.LF +:+ "- a") in
  let r2 := mkMediaData "u" ["a" +:+ fmt.LF +:+ "Images:"] 200 "m" in
  r1 <> r2 /\ record_output r1 = record_output r2.
Proof. split; [discriminate|reflexivity]. Qed.

(** The text of a record followed by a report. *)
Lemma record_output_prefix_free_witness :
  let r1 := mkMediaData "https://x/a" ["a.png"; "b.jpg"] 200 "hello" in
  let r2 := mkMediaData "https://x/a" ["a.png"; "b.jpg"] 200 "hello" in
  plain_record r1 = true /\ plain_record r2 = true /\
  record_output r1 +:+ report [r2] = record_output r2 +:+ report [r1] /\
  r1 = r2 /\ report [r2] = report [r1].
Proof.
  intros r1 r2.
  assert (plain_record r1 = true) as H1 by reflexivity.
  assert (plain_record r2 = true) as H2 by reflexivity.
  assert (record_output r1 +:+ report [r2] = record_output r2 +:+ report [r1])
    as H by reflexivity.
  split; [exact H1|]. split; [exact H2|]. split; [exact H|].
  exact (record_output_prefix_free r1 r2 _ _ H1 H2 H).
Defined.

Lemma report_inj_witness :
  let l := [ mkMediaData "https://x/missing" [] 404 "";
             mkMediaData "https://x/a" ["a.png"; "b.jpg"] 200 "hello" ] in
  forallb plain_record l = true /\ report l = report l /\ l = l.
Proof.
  intros l.
  assert (forallb plain_record l = true) as H by reflexivity.
  split; [exact H|]. split; [reflexivity|].
  exact (report_inj l l H H eq_refl).
Defined.

End ReportFacts.

(** ** More on the sequential functions *)

Section SequentialMore.
Context {libs : GoLibs}.

(** X12: for a URL that parses (and a random source whose draws are not
    negative) [makeRequest] makes exactly one call of the client, with a
    GET request for that URL whose only header is a User-Agent of the
    pool, and returns what the client answers, response or error,
    unchanged; it leaves the clock alone, the global source reseeded and
    the network as the client left it. *)
Theorem makeRequest_sends_one_get (url u : string) (w : World) :
  (forall g, 0 <= (rand_Int g).1)%Z ->
  url_Parse url = Ok u ->
  exists ua,
    ua ∈ userAgents /\
    let req := http.mkRequest "GET" u [("User-Agent", ua)] in
    makeRequest url w =
    (Ret (client_Do req (net w)).1,
     mkWorld (now w)
             (rand_Int (rand_Seed (time_Unix (now w)))).2
             (client_Do req (net w)).2).
Proof.
  intros Hpos Hu.
  destruct (randomUserAgent_in_pool w Hpos) as (ua & Hua & Hin).
  exists ua. split; [exact Hin|]. cbn zeta.
  unfold makeRequest, http_NewRequest. rewrite Hu.
  rewrite randomUserAgent_eq in *. cbn [fst] in Hua. rewrite Hua.
  cbn [http.Method http.URL http.Header http.Header_Set filter list_filter
       app set_rng net now rng].
  destruct (client_Do _ (net w)) as [[res|e] n]; reflexivity.
Qed.

(** X13: what [parseSitemap] does in each case: after a successful fetch
    and decoding it returns the text of the location entries in document
    order, one per entry; it returns an error exactly when [makeRequest]
    returns that error or the decoder does; it panics exactly when
    [makeRequest] panics; and it changes the world as its one call of
    [makeRequest] does. *)
Theorem parseSitemap_outcomes (sitemapURL : string) (w : World) :
  (forall resp sm,
      (makeRequest sitemapURL w).1 = Ret (Ok resp) ->
      xml_Decode (http.Body_ resp) = Ok sm ->
      (parseSitemap sitemapURL w).1 = Ret (Ok (Loc <$> Urls sm)))
  /\ (forall e,
        (parseSitemap sitemapURL w).1 = Ret (Err e) <->
        (makeRequest sitemapURL w).1 = Ret (Err e) \/
        exists resp, (makeRequest sitemapURL w).1 = Ret (Ok resp) /\
                     xml_Decode (http.Body_ resp) = Err e)
  /\ (forall msg,
        (parseSitemap sitemapURL w).1 = Panic msg <->
        (makeRequest sitemapURL w).1 = Panic msg)
  /\ (parseSitemap sitemapURL w).2 = (makeRequest sitemapURL w).2.
Proof.
  destruct (parseSitemap_locations sitemapURL w) as (H1 & H2 & H3).
  split_and!; try assumption.
  unfold parseSitemap.
  destruct (makeRequest sitemapURL w) as [[[resp|e]|msg] w1]; try reflexivity.
  by destruct (xml_Decode (http.Body_ resp)).
Qed.

End SequentialMore.

(** ** The empty input *)

Section EmptyInput.
Context {libs : GoLibs}.

(** X18: on an empty list of URLs and with a budget that is not negative,
    also a budget of zero, [scrapeImages] starts no goroutine and returns
    the empty slice after the three steps of the caller; it returns
    nothing else under any schedule. *)
Theorem scrapeImages_empty_input (parser : Parser) (concurrency : Z)
    (w : World) :
  (0 <= concurrency)%Z ->
  scrapeImages [] parser concurrency [Main; Main; Main] w = Some [] /\
  tasks (run [] parser concurrency [Main; Main; Main] (init w)) = [] /\
  forall sched rs,
    scrapeImages [] parser concurrency sched w = Some rs -> rs = [].
Proof.
  intros Hb.
  assert (run [] parser concurrency [Main; Main; Main] (init w) =
          mkState (MReturned []) [] 0 [] false [] w None) as Hrun.
  { cbn [run]. unfold step at 3, step_main. cbn.
    destruct (Z.ltb_spec concurrency 0); [lia|]. reflexivity. }
  split_and!.
  - unfold scrapeImages. by rewrite Hrun.
  - by rewrite Hrun.
  - intros sched rs H.
    apply all_succeed_returns_length in H. by destruct rs.
Qed.

End EmptyInput.

(** ** [main] *)

Section MainFacts.
Context {libs : GoLibs} {oslibs : OsLibs}.

(** X14: when one of the URLs of the sitemap cannot produce a record,
    [main] never gets to its write loop: under every schedule it ends
    without having returned, with nothing printed, and the output file is
    as [os.Create] left it although the other records were collected. *)
Theorem main_writes_nothing_after_a_failure (sched : list Actor) (w : World)
    (fs fs1 : FS) (outputFile : File) (urls : list string) (u : string) :
  os_Create output_name fs = (Ok outputFile, fs1) ->
  (parseSitemap sitemapURL w).1 = Ret (Ok urls) ->
  u ∈ urls -> never_succeeds DefaultParser u ->
  ending (main_ sched w fs) <> Returned /\
  final_fs (main_ sched w fs) = fs1 /\
  stdout (main_ sched w fs) = [] /\
  logged (main_ sched w fs) = [].
Proof.
  intros Hc Hp Hu Hnever. unfold main_. rewrite Hc.
  destruct (parseSitemap sitemapURL w) as [p w1]. cbn [fst] in Hp. subst p.
  set (s := run urls DefaultParser 50 sched (init w1)).
  assert (returned s = false) as Hret.
  { apply (doomed_never_returns urls DefaultParser 50 w1 s u Hu Hnever).
    apply reachable_run, reachable_init. }
  unfold returned in Hret.
  destruct (crashed s); [done|]. by destruct (main s).
Qed.

(** X15: [main] returns only after [scrapeImages] has returned one record
    per entry of the sitemap; it then makes the writes of its loop for
    exactly those records, in their order, and prints the completion
    message whether or not a write has failed. *)
Theorem main_returned (sched : list Actor) (w : World) (fs : FS) :
  ending (main_ sched w fs) = Returned ->
  exists outputFile fs1 urls results,
    os_Create output_name fs = (Ok outputFile, fs1) /\
    (parseSitemap sitemapURL w).1 = Ret (Ok urls) /\
    scrapeImages urls DefaultParser 50 sched (parseSitemap sitemapURL w).2
      = Some results /\
    length results = length urls /\
    final_fs (main_ sched w fs) = (write_results outputFile results fs1).1 /\
    logged (main_ sched w fs) = (write_results outputFile results fs1).2 /\
    stdout (main_ sched w fs) = [completion_message].
Proof.
  unfold main_.
  destruct (os_Create output_name fs) as [[outputFile|e] fs1]; [|discriminate].
  destruct (parseSitemap sitemapURL w) as [[[urls|e]|msg] w1];
    [|discriminate..].
  cbn [fst snd].
  destruct (crashed (run urls DefaultParser 50 sched (init w1))) eqn:Hcr;
    [discriminate|].
  destruct (main (run urls DefaultParser 50 sched (init w1)))
    as [| | |results] eqn:Hm; try discriminate.
  destruct (write_results outputFile results fs1) as [fs2 msgs] eqn:Hw.
  intros _. exists outputFile, fs1, urls, results.
  assert (scrapeImages urls DefaultParser 50 sched w1 = Some results) as Hsc
    by (unfold scrapeImages; by rewrite Hm).
  split_and!; try done.
  - by apply (all_succeed_returns_length urls DefaultParser 50 sched w1).
  - by rewrite Hw.
  - by rewrite Hw.
Qed.

(** X16: a fatal error happens only before the scraping starts: either
    the output file could not be created, and then no request was made,
    or the sitemap could not be read, and then the output file has been
    created and nothing is written to it. *)
Theorem main_fatal (sched : list Actor) (w : World) (fs : FS) (msg : string) :
  ending (main_ sched w fs) = Fatal msg ->
  stdout (main_ sched w fs) = [] /\
  ((exists e fs1,
       os_Create output_name fs = (Err e, fs1) /\
       msg = "Failed to create output file: " +:+ e /\
       final_world (main_ sched w fs) = w /\
       final_fs (main_ sched w fs) = fs1)
   \/
   (exists outputFile fs1 e,
       os_Create output_name fs = (Ok outputFile, fs1) /\
       (parseSitemap sitemapURL w).1 = Ret (Err e) /\
       msg = "Error parsing sitemap: " +:+ e /\
       final_fs (main_ sched w fs) = fs1)).
Proof.
  unfold main_.
  destruct (os_Create output_name fs) as [[outputFile|e] fs1].
  - destruct (parseSitemap sitemapURL w) as [[[urls|e]|m] w1]; cbn [fst].
    + destruct (crashed _); [discriminate|].
      destruct (main _); try discriminate.
      by destruct (write_results _ _ _).
    + intros [= <-]. split; [done|]. right. by exists outputFile, fs1, e.
    + discriminate.
  - intros [= <-]. split; [done|]. left. by exists e, fs1.
Qed.

(** X17: for a file whose content grows by what a successful write
    appends, a write loop that logs nothing leaves the file with its
    former content followed by the report of the records. *)
Theorem write_results_content (content : FS -> string) (outputFile : File)
    (results : list MediaData) (fs : FS) :
  (forall s fs0 fs1,
      File_WriteString outputFile s fs0 = (None, fs1) ->
      content fs1 = content fs0 +:+ s) ->
  (write_results outputFile results fs).2 = [] ->
  content (write_results outputFile results fs).1 =
  content fs +:+ report results.
Proof.
  intros Hlaw. revert fs. induction results as [|res rest IH]; intros fs Hlog.
  - cbn. clear. induction (content fs) as [|c s IH]; [done|].
    rewrite append_cons. by rewrite <- IH.
  - cbn [write_results report fold_right] in *.
    destruct (File_WriteString outputFile (record_output res) fs)
      as [[e|] fs1] eqn:Hw.
    + destruct (write_results outputFile rest fs1). discriminate Hlog.
    + specialize (IH fs1). destruct (write_results outputFile rest fs1)
        as [fs2 msgs]. cbn [fst snd] in *.
      rewrite (IH Hlog), (Hlaw _ _ _ Hw). by rewrite append_assoc.
Qed.

(** X19: the write loop goes on after a failed write: for a file whose
    content grows by what a successful write appends and is not changed
    by a failed one, the loop leaves the file with its former content
    followed by the report of some of the records, in their order, and
    has logged one message for each of the others. *)
Theorem write_results_partial (content : FS -> string) (outputFile : File)
    (results : list MediaData) (fs : FS) :
  (forall s fs0 fs1,
      File_WriteString outputFile s fs0 = (None, fs1) ->
      content fs1 = content fs0 +:+ s) ->
  (forall s e fs0 fs1,
      File_WriteString outputFile s fs0 = (Some e, fs1) ->
      content fs1 = content fs0) ->
  exists kept,
    sublist kept results /\
    length kept + length (write_results outputFile results fs).2
      = length results /\
    content (write_results outputFile results fs).1 =
    content fs +:+ report kept.
Proof.
  intros Hok Herr. revert fs.
  induction results as [|res rest IH]; intros fs.
  - exists []. split_and!; [constructor|reflexivity|].
    cbn. clear. induction (content fs) as [|c s IH]; [done|].
    rewrite append_cons. by rewrite <- IH.
  - cbn [write_results].
    destruct (File_WriteString outputFile (record_output res) fs)
      as [[e|] fs1] eqn:Hw;
      destruct (IH fs1) as (kept & Hsub & Hlen & Hc);
      destruct (write_results outputFile rest fs1) as [fs2 msgs];
      cbn [fst snd length] in *.
    + exists kept. split_and!; [by constructor|lia|].
      by rewrite Hc, (Herr _ _ _ _ Hw).
    + exists (res :: kept). split_and!; [by constructor|cbn; lia|].
      rewrite Hc, (Hok _ _ _ Hw). cbn [report fold_right].
      by rewrite append_assoc.
Qed.

End MainFacts.

(** ** More runs on concrete inputs *)

Section MoreRuns.
Import Demo.

Lemma demo_always_succeeds (u : string) (code : Z) (doc : html.Node) :
  starts_with_colon u = false -> serve u = Ok (code, Page doc) ->
  always_succeeds DefaultParser u.
Proof.
  intros Hu Hserve w.
  destruct (demo_makeRequest u w Hu) as (ua & w1 & Hm).
  rewrite Hm, Hserve. cbn [fst]. eexists. eexists. split; [reflexivity|].
  apply GetMediaData_Ok. reflexivity.
Qed.

Lemma urls2_always_succeed : Forall (always_succeeds DefaultParser) urls2.
Proof.
  repeat constructor.
  - by apply (demo_always_succeeds _ 200%Z page3).
  - by apply (demo_always_succeeds _ 404%Z page0).
Qed.

(** The first goroutine has stored its record and still holds [mu]; the
    second waits for it. *)
Lemma results_consistent_witness :
  let s := run urls2 DefaultParser 2
             ([Main; Main; Main; Main] ++ repeat (Go 0) 6 ++ repeat (Go 1) 4)
             (init world0) in
  reachable urls2 DefaultParser 2 world0 s /\
  mu s = true /\
  count holds_mu (tasks s) = (if mu s then 1 else 0) /\
  results s ≡ₚ omap stored (tasks s) /\
  Forall (fun d => exists u, u ∈ urls2 /\ produced DefaultParser u d)
         (results s).
Proof.
  intros s.
  assert (reachable urls2 DefaultParser 2 world0 s) as Hs
    by apply reachable_run, reachable_init.
  split; [exact Hs|]. split; [reflexivity|].
  exact (results_consistent urls2 DefaultParser 2 world0 s Hs).
Defined.

(** The first goroutine stands at the send of line 163. *)
Lemma signal_never_blocks_witness :
  let s := run urls2 DefaultParser 2
             ([Main; Main; Main; Main] ++ repeat (Go 0) 7) (init world0) in
  let d := mkMediaData "https://x/a" ["a.png"; "b.jpg"] 200 "hello" in
  let t := mkTask "https://x/a" (AtSignal d) in
  reachable urls2 DefaultParser 2 world0 s /\
  crashed s = None /\ tasks s !! 0%nat = Some t /\ pc t = AtSignal d /\
  length (worklist s) < length urls2 /\
  exists s', step urls2 DefaultParser 2 (Go 0) s = Some s' /\
             worklist s' = worklist s ++ [task_url t].
Proof.
  intros s d t.
  assert (reachable urls2 DefaultParser 2 world0 s) as Hs
    by apply reachable_run, reachable_init.
  assert (crashed s = None) as Hc by reflexivity.
  assert (tasks s !! 0%nat = Some t) as Ht by reflexivity.
  assert (pc t = AtSignal d) as Hpc by reflexivity.
  split; [exact Hs|]. split; [exact Hc|]. split; [exact Ht|].
  split; [exact Hpc|].
  exact (signal_never_blocks urls2 DefaultParser 2 world0 s 0 t d Hs Hc Ht Hpc).
Defined.

(** A run in which both pages are fetched. *)
Lemma scrapeImages_result_witness :
  let sched := [Main; Main; Main; Main] ++ repeat (Go 1) 9
               ++ repeat (Go 0) 9 ++ [Main; Main; Main] in
  let rs := [ mkMediaData "https://x/missing" [] 404 "";
              mkMediaData "https://x/a" ["a.png"; "b.jpg"] 200 "hello" ] in
  scrapeImages urls2 DefaultParser 1 sched world0 = Some rs /\
  length rs = length urls2 /\
  Forall (fun d => exists u, u ∈ urls2 /\ produced DefaultParser u d) rs /\
  rs = results (run urls2 DefaultParser 1 sched (init world0)) /\
  Forall (fun t => failed t = false /\ signalled t = true)
         (tasks (run urls2 DefaultParser 1 sched (init world0))).
Proof.
  intros sched rs.
  assert (scrapeImages urls2 DefaultParser 1 sched world0 = Some rs) as H
    by reflexivity.
  split; [exact H|].
  exact (scrapeImages_result urls2 DefaultParser 1 sched world0 rs H).
Defined.

(** Both pages always answer; the state is the one in which the first
    goroutine holds [mu]. *)
Lemma scrapeImages_can_return_witness :
  let s := run urls2 DefaultParser 1
             ([Main; Main; Main; Main] ++ repeat (Go 0) 5) (init world0) in
  (1 <= 1)%Z /\ Forall (always_succeeds DefaultParser) urls2 /\
  reachable urls2 DefaultParser 1 world0 s /\
  (exists sched, returned (run urls2 DefaultParser 1 sched s) = true) /\
  (exists sched rs, scrapeImages urls2 DefaultParser 1 sched world0 = Some rs).
Proof.
  intros s.
  assert (reachable urls2 DefaultParser 1 world0 s) as Hs
    by apply reachable_run, reachable_init.
  assert (1 <= 1)%Z as Hb by lia.
  split; [exact Hb|]. split; [exact urls2_always_succeed|]. split; [exact Hs|].
  exact (scrapeImages_can_return urls2 DefaultParser 1 world0 s Hb
           urls2_always_succeed Hs).
Defined.

(** The request of the second goroutine has failed; the first goroutine
    and the caller go on. *)
Lemma failure_blocks_caller_witness :
  let urls := ["https://x/a"; "https://down/"] in
  let s := run urls DefaultParser 2
             ([Main; Main; Main; Main] ++ repeat (Go 1) 2) (init world0) in
  let sched := repeat (Go 0) 9 ++ repeat (Go 1) 2 ++ repeat Main 3 in
  reachable urls DefaultParser 2 world0 s /\
  Exists (fun t => failed t = true) (tasks s) /\
  returned s = false /\
  returned (run urls DefaultParser 2 sched s) = false.
Proof.
  intros urls s sched.
  assert (reachable urls DefaultParser 2 world0 s) as Hs
    by apply reachable_run, reachable_init.
  assert (Exists (fun t => failed t = true) (tasks s)) as Hf.
  { apply Exists_exists. exists (mkTask "https://down/" (AtRelease Failed)).
    split; [|reflexivity]. apply list_elem_of_further, list_elem_of_here. }
  split; [exact Hs|]. split; [exact Hf|].
  exact (failure_blocks_caller urls DefaultParser 2 world0 s sched Hs Hf).
Defined.

Lemma zero_budget_blocks_witness :
  let sched := [Main; Main; Main; Main; Go 0; Go 1; Main; Go 0] in
  0%Z = 0%Z /\ urls2 <> [] /\
  scrapeImages urls2 DefaultParser 0 sched world0 = None /\
  Forall (fun t => pc t = AtAcquire)
         (tasks (run urls2 DefaultParser 0 sched (init world0))).
Proof.
  intros sched.
  assert (urls2 <> []) as Hne by discriminate.
  split; [reflexivity|]. split; [exact Hne|].
  exact (zero_budget_blocks urls2 DefaultParser 0 sched world0 eq_refl Hne).
Defined.

Lemma negative_budget_panics_witness :
  let sched := [Main; Main; Go 0] in
  (-1 < 0)%Z /\
  step urls2 DefaultParser (-1) Main (init world0) =
    Some (set_crashed makechan_out_of_range (init world0)) /\
  scrapeImages urls2 DefaultParser (-1) sched world0 = None /\
  tasks (run urls2 DefaultParser (-1) sched (init world0)) = [].
Proof.
  intros sched. assert (-1 < 0)%Z as Hb by lia.
  split; [exact Hb|].
  exact (negative_budget_panics urls2 DefaultParser (-1) sched world0 Hb).
Defined.

(** The goroutine of a URL that does not parse has panicked and run its
    deferred call. *)
Lemma panic_crashes_process_witness :
  let urls := ["://bad"] in
  let s := run urls DefaultParser 1 ([Main; Main; Main] ++ repeat (Go 0) 3)
             (init world0) in
  let t := mkTask "://bad" (Finished Panicking) in
  reachable urls DefaultParser 1 world0 s /\
  tasks s !! 0%nat = Some t /\ pc t = Finished Panicking /\
  (exists w' msg, (makeRequest (task_url t) w').1 = Panic msg) /\
  crashed s <> None /\
  forall a, step urls DefaultParser 1 a s = None.
Proof.
  intros urls s t.
  assert (reachable urls DefaultParser 1 world0 s) as Hs
    by apply reachable_run, reachable_init.
  assert (tasks s !! 0%nat = Some t) as Ht by reflexivity.
  split; [exact Hs|]. split; [exact Ht|]. split; [reflexivity|].
  exact (panic_crashes_process urls DefaultParser 1 world0 s 0 t Hs Ht eq_refl).
Defined.

Lemma well_formed_urls_never_crash_witness :
  let s := run urls2 DefaultParser 2
             ([Main; Main; Main; Main] ++ repeat (Go 0) 9 ++ repeat (Go 1) 9)
             (init world0) in
  (0 <= 2)%Z /\
  (forall g, 0 <= (rand_Int g).1)%Z /\
  (forall u, u ∈ urls2 -> exists p, url_Parse u = Ok p) /\
  reachable urls2 DefaultParser 2 world0 s /\
  crashed s = None /\
  Forall (fun t => pc t <> AtRelease Panicking /\ pc t <> Finished Panicking)
         (tasks s).
Proof.
  intros s.
  assert (reachable urls2 DefaultParser 2 world0 s) as Hs
    by apply reachable_run, reachable_init.
  assert (0 <= 2)%Z as Hb by lia.
  assert (forall u, u ∈ urls2 -> exists p, url_Parse u = Ok p) as Hok.
  { intros u Hu. unfold urls2 in Hu.
    apply elem_of_cons in Hu as [->|Hu]; [by eexists|].
    apply elem_of_cons in Hu as [->|Hu]; [by eexists|].
    by apply not_elem_of_nil in Hu. }
  split; [exact Hb|]. split; [exact demo_draws_nonnegative|].
  split; [exact Hok|]. split; [exact Hs|].
  exact (well_formed_urls_never_crash urls2 DefaultParser 2 world0 s Hb
           demo_draws_nonnegative Hok Hs).
Defined.

Lemma scrapeImages_empty_input_witness :
  (0 <= 0)%Z /\
  scrapeImages [] DefaultParser 0 [Main; Main; Main] world0 = Some [] /\
  tasks (run [] DefaultParser 0 [Main; Main; Main] (init world0)) = [] /\
  forall sched rs,
    scrapeImages [] DefaultParser 0 sched world0 = Some rs -> rs = [].
Proof.
  assert (0 <= 0)%Z as Hb by lia. split; [exact Hb|].
  exact (scrapeImages_empty_input DefaultParser 0 world0 Hb).
Defined.

Lemma makeRequest_sends_one_get_witness :
  (forall g, 0 <= (rand_Int g).1)%Z /\
  url_Parse "https://x/missing" = Ok "https://x/missing" /\
  exists ua,
    ua ∈ userAgents /\
    let req := http.mkRequest "GET" "https://x/missing" [("User-Agent", ua)] in
    makeRequest "https://x/missing" world0 =
    (Ret (client_Do req (net world0)).1,
     mkWorld (now world0)
             (rand_Int (rand_Seed (time_Unix (now world0)))).2
             (client_Do req (net world0)).2).
Proof.
  split; [exact demo_draws_nonnegative|]. split; [reflexivity|].
  exact (makeRequest_sends_one_get "https://x/missing" "https://x/missing"
           world0 demo_draws_nonnegative eq_refl).
Defined.

End MoreRuns.

(** ** Runs of [main] *)

Section MainRuns.
Import DemoOs.

Lemma sitemap_libs_draws_nonnegative (sm : Sitemap)
    (g : @Rng (libs_with_sitemap sm)) :
  (0 <= (@rand_Int (libs_with_sitemap sm) g).1)%Z.
Proof. cbn. apply Z.mod_pos_bound. lia. Qed.

Lemma down_never_succeeds_bad :
  @never_succeeds libs_bad DefaultParser "https://down/".
Proof.
  intros w resp H.
  destruct (@makeRequest_well_formed libs_bad "https://down/" "https://down/" w
              (sitemap_libs_draws_nonnegative sitemap_bad) eq_refl)
    as (ua & _ & Hm).
  rewrite Hm in H. cbn in H. discriminate.
Qed.

(** The file of [DemoOs] grows by what a write appends. *)
Lemma demo_write_content (name s : string) (fs0 fs1 : list (string * string)) :
  write name s fs0 = (None, fs1) ->
  content name fs1 = content name fs0 +:+ s.
Proof.
  unfold write. destruct (decide (name ∈ fs0.*1)) as [Hin|]; [|discriminate].
  intros [= <-]. unfold content. induction fs0 as [|[n c] fs IH].
  - by apply not_elem_of_nil in Hin.
  - cbn [fmap list_fmap List.find fst snd].
    destruct (decide (n = name)) as [->|Hne].
    + cbn [fst]. rewrite bool_decide_eq_true_2 by done. reflexivity.
    + cbn [fst]. rewrite bool_decide_eq_false_2 by done. apply IH.
      cbn in Hin. apply elem_of_cons in Hin as [Heq|Hin]; [congruence|done].
Qed.

(** The second page of the sitemap refuses the connection: the record of
    the first is collected and nothing is written. *)
Lemma main_writes_nothing_after_a_failure_witness :
  let fs1 := [("image_results.txt", ""); ("notes.txt", "x")] in
  let urls := ["https://x/a"; "https://down/"] in
  @os_Create oslibs output_name fs0 = (Ok "image_results.txt", fs1) /\
  (@parseSitemap libs_bad sitemapURL world_bad).1 = Ret (Ok urls) /\
  "https://down/" ∈ urls /\
  @never_succeeds libs_bad DefaultParser "https://down/" /\
  ending (@main_ libs_bad oslibs sched_bad world_bad fs0) <> Returned /\
  final_fs (@main_ libs_bad oslibs sched_bad world_bad fs0) = fs1 /\
  stdout (@main_ libs_bad oslibs sched_bad world_bad fs0) = [] /\
  logged (@main_ libs_bad oslibs sched_bad world_bad fs0) = [].
Proof.
  intros fs1 urls.
  assert (@os_Create oslibs output_name fs0 = (Ok "image_results.txt", fs1))
    as Hc by reflexivity.
  assert ((@parseSitemap libs_bad sitemapURL world_bad).1 = Ret (Ok urls))
    as Hp by reflexivity.
  assert ("https://down/" ∈ urls) as Hu
    by apply list_elem_of_further, list_elem_of_here.
  split; [exact Hc|]. split; [exact Hp|]. split; [exact Hu|].
  split; [exact down_never_succeeds_bad|].
  exact (@main_writes_nothing_after_a_failure libs_bad oslibs sched_bad
           world_bad fs0 fs1 "image_results.txt" urls "https://down/"
           Hc Hp Hu down_never_succeeds_bad).
Defined.

(** Both pages of the sitemap answer: the report replaces the stale one. *)
Lemma main_returned_witness :
  ending (@main_ libs_ok oslibs sched_ok world_ok fs0) = Returned /\
  content "image_results.txt"
    (final_fs (@main_ libs_ok oslibs sched_ok world_ok fs0)) =
  report [ mkMediaData "https://x/missing" [] 404 "";
           mkMediaData "https://x/a" ["a.png"; "b.jpg"] 200 "hello" ] /\
  exists outputFile fs1 urls results,
    @os_Create oslibs output_name fs0 = (Ok outputFile, fs1) /\
    (@parseSitemap libs_ok sitemapURL world_ok).1 = Ret (Ok urls) /\
    @scrapeImages libs_ok urls DefaultParser 50 sched_ok
      (@parseSitemap libs_ok sitemapURL world_ok).2 = Some results /\
    length results = length urls /\
    final_fs (@main_ libs_ok oslibs sched_ok world_ok fs0) =
      (@write_results oslibs outputFile results fs1).1 /\
    logged (@main_ libs_ok oslibs sched_ok world_ok fs0) =
      (@write_results oslibs outputFile results fs1).2 /\
    stdout (@main_ libs_ok oslibs sched_ok world_ok fs0) =
      [completion_message].
Proof.
  assert (ending (@main_ libs_ok oslibs sched_ok world_ok fs0) = Returned)
    as H by reflexivity.
  split; [exact H|]. split; [reflexivity|].
  exact (@main_returned libs_ok oslibs sched_ok world_ok fs0 H).
Defined.

(** The URL [main] reads does not answer with a sitemap: the stale report
    has been truncated and nothing is written. *)
Lemma main_fatal_witness :
  let r := @main_ Demo.libs oslibs [] Demo.world0 fs0 in
  let msg := "Error parsing sitemap: expected element type <urlset>" in
  ending r = Fatal msg /\
  content "image_results.txt" (final_fs r) = "" /\
  stdout r = [] /\
  ((exists e fs1,
       @os_Create oslibs output_name fs0 = (Err e, fs1) /\
       msg = "Failed to create output file: " +:+ e /\
       final_world r = Demo.world0 /\ final_fs r = fs1)
   \/
   (exists outputFile fs1 e,
       @os_Create oslibs output_name fs0 = (Ok outputFile, fs1) /\
       (@parseSitemap Demo.libs sitemapURL Demo.world0).1 = Ret (Err e) /\
       msg = "Error parsing sitemap: " +:+ e /\
       final_fs r = fs1)).
Proof.
  intros r msg. assert (ending r = Fatal msg) as H by reflexivity.
  split; [exact H|]. split; [reflexivity|].
  exact (@main_fatal Demo.libs oslibs [] Demo.world0 fs0 msg H).
Defined.

Lemma write_results_content_witness :
  let rs := [ mkMediaData "https://x/missing" [] 404 "";
              mkMediaData "https://x/a" ["a.png"; "b.jpg"] 200 "hello" ] in
  let fs := [("image_results.txt", "# "); ("notes.txt", "x")] in
  (forall s fs0 fs1,
      @File_WriteString oslibs "image_results.txt" s fs0 = (None, fs1) ->
      content "image_results.txt" fs1 =
      content "image_results.txt" fs0 +:+ s) /\
  (@write_results oslibs "image_results.txt" rs fs).2 = [] /\
  content "image_results.txt"
    (@write_results oslibs "image_results.txt" rs fs).1 =
  content "image_results.txt" fs +:+ report rs.
Proof.
  intros rs fs.
  assert ((@write_results oslibs "image_results.txt" rs fs).2 = []) as Hl
    by reflexivity.
  split; [exact (demo_write_content "image_results.txt")|]. split; [exact Hl|].
  exact (@write_results_content oslibs (content "image_results.txt")
           "image_results.txt" rs fs
           (demo_write_content "image_results.txt") Hl).
Defined.

Lemma demo_write_error (name s e : string) (fs0 fs1 : list (string * string)) :
  write name s fs0 = (Some e, fs1) -> content name fs1 = content name fs0.
Proof.
  unfold write. destruct (decide (name ∈ fs0.*1)); [discriminate|].
  by intros [= _ <-].
Qed.

(** Writes to a file that is not there: both are refused and logged. *)
Lemma write_results_partial_witness :
  let rs := [ mkMediaData "https://x/missing" [] 404 "";
              mkMediaData "https://x/a" ["a.png"; "b.jpg"] 200 "hello" ] in
  let fs := [("notes.txt", "x")] in
  let f := "image_results.txt" in
  (forall s fs0 fs1,
      @File_WriteString oslibs f s fs0 = (None, fs1) ->
      content f fs1 = content f fs0 +:+ s) /\
  (forall s e fs0 fs1,
      @File_WriteString oslibs f s fs0 = (Some e, fs1) ->
      content f fs1 = content f fs0) /\
  length (@write_results oslibs f rs fs).2 = 2 /\
  exists kept,
    sublist kept rs /\
    length kept + length (@write_results oslibs f rs fs).2 = length rs /\
    content f (@write_results oslibs f rs fs).1 = content f fs +:+ report kept.
Proof.
  intros rs fs f.
  split; [exact (demo_write_content f)|].
  split; [exact (demo_write_error f)|]. split; [reflexivity|].
  exact (@write_results_partial oslibs (content f) f rs fs
           (demo_write_content f) (demo_write_error f)).
Defined.

End MainRuns.

(** ** The sitemap of a URL that parses *)

Section SitemapFacts.
Context {libs : GoLibs}.


End SitemapFacts.

(** ** A response read twice *)

Section StreamFacts.
Context {libs : GoLibs}.

(** On an unread body the call is the one of [GetMediaData], and it
    leaves the body closed. *)
Lemma Live_GetMediaData_unread (resp : Live.Response) :
  Live.closed resp = false ->
  Live.GetMediaData resp =
  (GetMediaData (Live.response resp),
   Live.mkResponse (Live.response resp) true).
Proof.
  intros H. unfold Live.GetMediaData, Live.NewDocumentFromResponse,
    GetMediaData, NewDocumentFromResponse. rewrite H. cbn [Live.response].
  destruct (html_Parse (http.Body_ (Live.response resp))); [|reflexivity].
  by destruct (goquery.Selection_Attr _ "content").
Qed.

(** On a closed body the call fails with the error of the read. *)
Lemma Live_GetMediaData_closed (resp : Live.Response) :
  Live.closed resp = true ->
  Live.GetMediaData resp =
  (Err Live.read_on_closed, Live.mkResponse (Live.response resp) true).
Proof.
  intros H. unfold Live.GetMediaData, Live.NewDocumentFromResponse.
  by rewrite H.
Qed.

(** The record of an unread response that carries a document. *)
Lemma Live_GetMediaData_record (resp : Live.Response) (doc : html.Node) :
  Live.closed resp = false ->
  html_Parse (http.Body_ (Live.response resp)) = Ok doc ->
  Spec.parse_tree doc = true ->
  Live.GetMediaData resp =
  (Ok (mkMediaData (http.URL (http.Request_ (Live.response resp)))
                   (Spec.image_refs doc)
                   (http.StatusCode (Live.response resp))
                   (Spec.meta_snippet doc)),
   Live.mkResponse (Live.response resp) true).
Proof.
  intros Hc Hdoc Hwf. rewrite (Live_GetMediaData_unread resp Hc).
  rewrite (GetMediaData_Ok _ doc Hdoc). f_equal. f_equal.
  rewrite !Find_document_order by exact Hwf. f_equal.
  unfold Spec.meta_snippet.
  rewrite <- (Selection_Attr_first Spec.is_meta_description).
  f_equal. f_equal. apply List.filter_ext. intros n.
  apply matches_meta_description.
Qed.

(** C9, amended: an application of the extractor to a response whose body
    has not been read returns the record that the document and the
    response metadata determine (final URL, status code, the image
    references and the meta snippet of the document), and so does every
    application to another unread response with the same document and
    metadata; the application closes the body, and an application to the
    response it leaves returns the error of a read on a closed body. *)
Theorem GetMediaData_unread_then_closed (resp : Live.Response)
    (doc : html.Node) :
  Live.closed resp = false ->
  html_Parse (http.Body_ (Live.response resp)) = Ok doc ->
  Spec.parse_tree doc = true ->
  let record :=
    mkMediaData (http.URL (http.Request_ (Live.response resp)))
                (Spec.image_refs doc)
                (http.StatusCode (Live.response resp))
                (Spec.meta_snippet doc) in
  (Live.GetMediaData resp).1 = Ok record /\
  Live.closed (Live.GetMediaData resp).2 = true /\
  (Live.GetMediaData (Live.GetMediaData resp).2).1 = Err Live.read_on_closed /\
  (forall resp',
      Live.closed resp' = false ->
      html_Parse (http.Body_ (Live.response resp')) = Ok doc ->
      http.StatusCode (Live.response resp')
        = http.StatusCode (Live.response resp) ->
      http.URL (http.Request_ (Live.response resp'))
        = http.URL (http.Request_ (Live.response resp)) ->
      (Live.GetMediaData resp').1 = Ok record).
Proof.
  intros Hc Hdoc Hwf record.
  rewrite (Live_GetMediaData_record resp doc Hc Hdoc Hwf). cbn [fst snd].
  split_and!; [reflexivity|reflexivity| |].
  - by rewrite Live_GetMediaData_closed.
  - intros resp' Hc' Hdoc' Hs Hu.
    rewrite (Live_GetMediaData_record resp' doc Hc' Hdoc' Hwf). cbn [fst].
    unfold record. by rewrite Hs, Hu.
Qed.

End StreamFacts.

(** ** Interleaved calls of [randomUserAgent] *)

Section CallsFacts.
Context {libs : GoLibs}.
Import Calls.

Lemma run_app (p q : list (nat * Z)) (s : State) :
  run (p ++ q) s = run q (run p s).
Proof.
  revert s. induction p as [|[i t] p IH]; intros s; [reflexivity|].
  cbn [app run]. apply IH.
Qed.

Lemma step_other (i j : nat) (t : Z) (s : State) :
  i <> j -> calls (step i t s) !! j = calls s !! j.
Proof.
  intros Hij. unfold step. destruct (calls s !! i) as [[| |o]|]; try done.
  - cbn [calls]. by apply list_lookup_insert_ne.
  - destruct (rand_Int (source s)). cbn [calls].
    by apply list_lookup_insert_ne.
Qed.

Lemma step_answered (i : nat) (t : Z) (s : State) (o : Outcome string) :
  calls s !! i = Some (Answered o) -> step i t s = s.
Proof. intros H. unfold step. by rewrite H. Qed.

(** A call that has returned keeps its answer. *)
Lemma answered_stable (sched : list (nat * Z)) (s : State) (i : nat)
    (o : Outcome string) :
  calls s !! i = Some (Answered o) ->
  calls (run sched s) !! i = Some (Answered o).
Proof.
  revert s. induction sched as [|[j t] sched IH]; intros s H; [exact H|].
  cbn [run]. apply IH. destruct (decide (j = i)) as [->|Hne].
  - by rewrite (step_answered i t s o H).
  - by rewrite step_other.
Qed.

Lemma untouched (p : list (nat * Z)) (s : State) (i : nat) :
  i ∉ p.*1 -> calls (run p s) !! i = calls s !! i.
Proof.
  revert s. induction p as [|[j t] p IH]; intros s Hi; [reflexivity|].
  cbn in Hi. apply not_elem_of_cons in Hi as [Hne Hi].
  cbn [run]. rewrite IH by exact Hi. by apply step_other.
Qed.

(** The two operations of a call, one right after the other. *)
Lemma unbroken_pair (i : nat) (t t' : Z) (s : State) :
  calls s !! i = Some AtSeed ->
  calls (run [(i, t); (i, t')] s) !! i
  = Some (Answered (agent_of_second (time_Unix t))).
Proof.
  intros H. pose proof (lookup_lt_Some _ _ _ H) as Hlt.
  cbn [run]. unfold step at 2. rewrite H. unfold step. cbn [calls source].
  rewrite list_lookup_insert_eq by exact Hlt.
  unfold agent_of_second. destruct (rand_Int (rand_Seed (time_Unix t))).
  cbn [calls fst]. apply list_lookup_insert_eq. by rewrite length_insert.
Qed.

(** The answer of a call that is not overlapped. *)
Lemma unbroken_answer (g : Rng) (n : nat) (sched : list (nat * Z))
    (i : nat) (t : Z) :
  i < n -> unbroken sched i t ->
  calls (run sched (begin g n)) !! i
  = Some (Answered (agent_of_second (time_Unix t))).
Proof.
  intros Hi (before & after & t' & -> & Hfresh).
  change ((i, t) :: (i, t') :: after) with ([(i, t); (i, t')] ++ after).
  rewrite !run_app. apply answered_stable, unbroken_pair.
  rewrite untouched by exact Hfresh. unfold begin. cbn [calls].
  by apply lookup_replicate_2.
Qed.

Lemma agent_of_second_in_pool (sec : Z) :
  (forall g, 0 <= (rand_Int g).1)%Z ->
  exists ua, agent_of_second sec = Ret ua /\ ua ∈ userAgents.
Proof.
  intros Hpos. unfold agent_of_second.
  destruct (index_Ret userAgents
              (Z.rem (rand_Int (rand_Seed sec)).1
                     (Z.of_nat (length userAgents))))
    as (ua & Hua & Hin).
  { apply Z.rem_bound_pos; [apply Hpos | simpl; lia]. }
  exists ua. split; [exact Hua|]. by eapply list_elem_of_lookup_2.
Qed.

(** Whatever the interleaving, a call that returns returns a string of
    the pool. *)
Lemma answers_in_pool (sched : list (nat * Z)) (s : State) :
  (forall g, 0 <= (rand_Int g).1)%Z ->
  Forall (fun c => forall o, c = Answered o ->
                     exists ua, o = Ret ua /\ ua ∈ userAgents) (calls s) ->
  Forall (fun c => forall o, c = Answered o ->
                     exists ua, o = Ret ua /\ ua ∈ userAgents)
         (calls (run sched s)).
Proof.
  intros Hpos. revert s. induction sched as [|[i t] sched IH]; intros s Hs;
    [exact Hs|].
  cbn [run]. apply IH. unfold step.
  destruct (calls s !! i) as [[| |o]|]; try exact Hs.
  - cbn [calls]. apply Forall_insert; [exact Hs|]. intros o [=].
  - destruct (rand_Int (source s)) as [r g'] eqn:Hr. cbn [calls].
    apply Forall_insert; [exact Hs|]. intros o [= <-].
    destruct (index_Ret userAgents (Z.rem r (Z.of_nat (length userAgents))))
      as (ua & Hua & Hin).
    { apply Z.rem_bound_pos; [|simpl; lia].
      specialize (Hpos (source s)). by rewrite Hr in Hpos. }
    exists ua. split; [exact Hua|]. by eapply list_elem_of_lookup_2.
Qed.

(** C10, amended: with a source whose draws are not negative, under every
    interleaving of the calls' operations a call that returns returns a
    string of the three-element pool; and two calls that are not
    overlapped (the [rand.Int] of each follows its own [rand.Seed]
    directly) and seed within the same second return the same string,
    the one [randomUserAgent] returns when it runs alone in that
    second. *)
Theorem randomUserAgent_unbroken_calls (g : Rng) (n : nat)
    (sched : list (nat * Z)) :
  (forall g, 0 <= (rand_Int g).1)%Z ->
  length userAgents = 3 /\
  (forall i o,
      calls (run sched (begin g n)) !! i = Some (Answered o) ->
      exists ua, o = Ret ua /\ ua ∈ userAgents) /\
  (forall i j ti tj sec,
      i < n -> j < n ->
      unbroken sched i ti -> unbroken sched j tj ->
      in_second sec ti -> in_second sec tj ->
      exists ua,
        ua ∈ userAgents /\
        calls (run sched (begin g n)) !! i = Some (Answered (Ret ua)) /\
        calls (run sched (begin g n)) !! j = Some (Answered (Ret ua)) /\
        forall w, in_second sec (now w) -> (randomUserAgent w).1 = Ret ua).
Proof.
  intros Hpos. split; [reflexivity|]. split.
  - intros i o Hi.
    assert (Forall (fun c => forall o, c = Answered o ->
                      exists ua, o = Ret ua /\ ua ∈ userAgents)
                   (calls (run sched (begin g n)))) as Hall.
    { apply answers_in_pool; [exact Hpos|]. unfold begin. cbn [calls].
      apply Forall_replicate. intros o' [=]. }
    rewrite Forall_forall in Hall. apply (Hall (Answered o)); [|reflexivity].
    by eapply list_elem_of_lookup_2.
  - intros i j ti tj sec Hi Hj Hui Huj Hti Htj.
    destruct (agent_of_second_in_pool sec Hpos) as (ua & Hua & Hin).
    exists ua. split; [exact Hin|].
    rewrite (unbroken_answer g n sched i ti Hi Hui).
    rewrite (unbroken_answer g n sched j tj Hj Huj).
    rewrite (time_Unix_second ti sec Hti), (time_Unix_second tj sec Htj).
    rewrite Hua. split_and!; [reflexivity|reflexivity|].
    intros w Hw. rewrite randomUserAgent_eq. cbn [fst].
    rewrite (time_Unix_second (now w) sec Hw). exact Hua.
Qed.

End CallsFacts.

(** ** Runs for the sitemap, the stream and the interleaved calls *)

Section RevisedRuns.
Import Demo.


(** The extractor applied twice to one response: the second application
    finds the body closed, so repeated applications do not yield the same
    record. *)
Lemma GetMediaData_second_application_fails :
  let resp := Live.fresh response3 in
  (Live.GetMediaData resp).1 =
    Ok (mkMediaData "https://x/3" ["a.png"; "b.jpg"] 200 "hello") /\
  (Live.GetMediaData (Live.GetMediaData resp).2).1 = Err Live.read_on_closed /\
  ~ (forall r : Live.Response,
        (Live.GetMediaData (Live.GetMediaData r).2).1
        = (Live.GetMediaData r).1).
Proof.
  intros resp. split; [reflexivity|]. split; [reflexivity|].
  intros H. specialize (H resp). discriminate H.
Qed.

Lemma GetMediaData_unread_then_closed_witness :
  let resp := Live.fresh response3 in
  let record := mkMediaData "https://x/3" ["a.png"; "b.jpg"] 200 "hello" in
  Live.closed resp = false /\
  html_Parse (http.Body_ (Live.response resp)) = Ok page3 /\
  Spec.parse_tree page3 = true /\
  (Live.GetMediaData resp).1 = Ok record /\
  Live.closed (Live.GetMediaData resp).2 = true /\
  (Live.GetMediaData (Live.GetMediaData resp).2).1 = Err Live.read_on_closed /\
  (forall resp',
      Live.closed resp' = false ->
      html_Parse (http.Body_ (Live.response resp')) = Ok page3 ->
      http.StatusCode (Live.response resp')
        = http.StatusCode (Live.response resp) ->
      http.URL (http.Request_ (Live.response resp'))
        = http.URL (http.Request_ (Live.response resp)) ->
      (Live.GetMediaData resp').1 = Ok record).
Proof.
  intros resp record.
  split; [reflexivity|]. split; [reflexivity|]. split; [reflexivity|].
  exact (GetMediaData_unread_then_closed resp page3 eq_refl eq_refl eq_refl).
Defined.

(** Two calls in the second 1700000001 whose operations interleave
    (seed, seed, draw, draw): the second call gets the second draw of the
    seed, and the two calls return different strings. *)
Lemma randomUserAgent_overlapping_calls_differ :
  let t := 1700000001000000000%Z in
  let s := Calls.run [(0, t); (1, t); (0, t); (1, t)] (Calls.begin 0%Z 2) in
  Calls.in_second 1700000001 t /\
  Calls.calls s !! 0%nat = Some (Calls.Answered (index userAgents 1)) /\
  Calls.calls s !! 1%nat = Some (Calls.Answered (index userAgents 2)) /\
  index userAgents 1 <> index userAgents 2.
Proof.
  intros t s. split; [unfold Calls.in_second; cbn; lia|].
  split; [reflexivity|]. split; [reflexivity|]. discriminate.
Qed.

(** The same two calls, one after the other. *)
Lemma randomUserAgent_unbroken_calls_witness :
  let t := 1700000001000000000%Z in
  let t' := 1700000001999999999%Z in
  let sched := [(0, t); (0, t); (1, t'); (1, t')] in
  (forall g, 0 <= (rand_Int g).1)%Z /\
  Calls.unbroken sched 0 t /\ Calls.unbroken sched 1 t' /\
  Calls.in_second 1700000001 t /\ Calls.in_second 1700000001 t' /\
  exists ua,
    ua ∈ userAgents /\
    Calls.calls (Calls.run sched (Calls.begin 0%Z 2)) !! 0%nat
      = Some (Calls.Answered (Ret ua)) /\
    Calls.calls (Calls.run sched (Calls.begin 0%Z 2)) !! 1%nat
      = Some (Calls.Answered (Ret ua)) /\
    forall w, Calls.in_second 1700000001 (now w) ->
              (randomUserAgent w).1 = Ret ua.
Proof.
  intros t t' sched.
  assert (Calls.unbroken sched 0 t) as H0.
  { exists [], [(1, t'); (1, t')], t. split; [reflexivity|].
    apply not_elem_of_nil. }
  assert (Calls.unbroken sched 1 t') as H1.
  { exists [(0, t); (0, t)], [], t'. split; [reflexivity|].
    cbn. intros H. apply elem_of_cons in H as [H|H]; [discriminate|].
    apply elem_of_cons in H as [H|H]; [discriminate|].
    by apply not_elem_of_nil in H. }
  assert (Calls.in_second 1700000001 t) as Ht
    by (unfold Calls.in_second; cbn; lia).
  assert (Calls.in_second 1700000001 t') as Ht'
    by (unfold Calls.in_second; cbn; lia).
  split; [exact demo_draws_nonnegative|]. split; [exact H0|].
  split; [exact H1|]. split; [exact Ht|]. split; [exact Ht'|].
  exact (proj2 (proj2 (@randomUserAgent_unbroken_calls Demo.libs 0%Z 2 sched
                         demo_draws_nonnegative))
           0 1 t t' 1700000001%Z ltac:(lia) ltac:(lia) H0 H1 Ht Ht').
Defined.

End RevisedRuns.
